(** * Windowed temporal alignment of [utils.py]

    A shallow embedding of [DataStreamer] (class [SamplingRate], methods
    [initialize] and [next]) together with the properties of the
    alignment loop, of the batch cursor and of the shuffle step.

    Data is modelled as the program has it after [read_csv_file]:
    a feature file is a list of rows of binary64 floats, a time file a
    list of floats, a label file a list of strings.  Python integers are
    [Z]; Python exceptions are the left summand of [result].

    [np.array] (line 116) is taken as the identity on this
    representation, although numpy rejects windows whose rows differ in
    width; the fields [classes], [sample_weights] and [class_weights]
    (lines 127-131) are written by library calls on the final labels
    and are left out.  So what [initialize] can raise is stated on the
    file loop [load_files] (lines 88-115) and on [shuffle_step] (lines
    119-123); the properties that speak of a streamer returned by
    [initialize] assume that it returned. *)

From Stdlib Require Import List ZArith Lia Bool Floats Permutation.
From Stdlib Require String.
Import String.StringSyntax.
Delimit Scope string_scope with string.
Import ListNotations.

Local Open Scope Z_scope.

(** ** Exceptions and the error monad *)

Inductive exn : Type :=
| IndexError
| ConfigurationError.

Definition result (A : Type) : Type := (exn + A)%type.

Definition ret {A} (a : A) : result A := inr a.
Definition raise {A} (e : exn) : result A := inl e.

Definition bind {A B} (m : result A) (k : A -> result B) : result B :=
  match m with
  | inl e => inl e
  | inr a => k a
  end.

Notation "x <- m ;; k" := (bind m (fun x => k))
  (at level 61, m at next level, right associativity).
Notation "' pat <- m ;; k" := (bind m (fun x => match x with pat => k end))
  (at level 61, pat pattern, m at next level, right associativity).

(** A [for] loop whose body may raise: the state is threaded from left
    to right and the first exception ends the loop. *)
Fixpoint for_each {S A} (body : S -> A -> result S) (s : S) (l : list A)
  : result S :=
  match l with
  | [] => ret s
  | a :: l' => s' <- body s a ;; for_each body s' l'
  end.

(** ** Python sequence primitives *)

Definition len {A} (l : list A) : Z := Z.of_nat (List.length l).

(** [l[i]]: indices [0 .. len-1] count from the front, [-len .. -1]
    from the back, anything else raises [IndexError]. *)
Definition getitem {A} (l : list A) (i : Z) : result A :=
  let i' := if i <? 0 then i + len l else i in
  if (0 <=? i') && (i' <? len l) then
    match nth_error l (Z.to_nat i') with
    | Some a => ret a
    | None => raise IndexError
    end
  else raise IndexError.

(** [l[a:b]]: both bounds are shifted by [len] when negative and then
    clamped to [0 .. len]; never raises. *)
Definition slice_bound {A} (l : list A) (i : Z) : Z :=
  let i' := if i <? 0 then i + len l else i in
  Z.max 0 (Z.min i' (len l)).

Definition slice {A} (l : list A) (a b : Z) : list A :=
  let lo := slice_bound l a in
  let hi := slice_bound l b in
  firstn (Z.to_nat (hi - lo)) (skipn (Z.to_nat lo) l).

(** [enumerate(l)] *)
Fixpoint enumerate_from {A} (i : nat) (l : list A) : list (nat * A) :=
  match l with
  | [] => []
  | a :: l' => (i, a) :: enumerate_from (S i) l'
  end.

Definition enumerate {A} (l : list A) : list (nat * A) := enumerate_from 0 l.

(** ** Module constants and [SamplingRate] *)

(** [1.0e-8], rounded to binary64 as Python does. *)
Definition FLOAT_ERROR : float := 0x1.5798ee2308c3ap-27%float.

(** A feature vector, and the window of feature vectors of one label. *)
Abbreviation row := (list float) (only parsing).
Abbreviation window := (list (list float)) (only parsing).

Record SamplingRate : Type := mkSamplingRate {
  intervals : list float;
  x_start : Z;
  window_skip : Z;
  step_size : Z
}.

Definition window_size (sd : SamplingRate) : nat := List.length (intervals sd).

(** ** The alignment loops of [initialize] (lines 102-115) *)

(** [abs(y_time + delta - x_time) <= FLOAT_ERROR] *)
Definition within_tolerance (y_time delta x_time : float) : bool :=
  (PrimFloat.abs (y_time + delta - x_time) <=? FLOAT_ERROR)%float.

(** [[0.0] * len(features[0])] *)
Definition zero_row (features : list row) : result row :=
  r0 <- getitem features 0 ;;
  ret (repeat 0%float (List.length r0)).

Section Align.

Variable features : list row.
Variable feature_times : list float.
Variable sd : SamplingRate.

(** Body of [for delta in self.sample_deltas.intervals].  The state is
    [(window_index, samples)].  [feature_times[window_index]] is read
    before the bound is tested. *)
Definition delta_body (y_time : float) (st : Z * window) (delta : float)
  : result (Z * window) :=
  let '(window_index, samples) := st in
  x_time <- getitem feature_times window_index ;;
  if (window_index <? len feature_times)
     && within_tolerance y_time delta x_time
  then
    r <- getitem features window_index ;;
    ret (window_index + window_skip sd, samples ++ [r])
  else
    z <- zero_row features ;;
    ret (window_index, samples ++ [z]).

(** The window of one label, searched from [x_index]. *)
Definition build_window (x_index : Z) (y_time : float) : result window :=
  '(_, samples) <- for_each (delta_body y_time)
                            (Z.max x_index 0, []) (intervals sd) ;;
  ret samples.

(** Body of [for y_index, y_time in enumerate(label_times)].  The
    state is [(x_index, self.features)]. *)
Definition label_body (st : Z * list window) (yt : nat * float)
  : result (Z * list window) :=
  let '(x_index, acc) := st in
  samples <- build_window x_index (snd yt) ;;
  ret (x_index + step_size sd, acc ++ [samples]).

(** Lines 102-115 for one file: [x_index] starts from [x_start] and the
    windows are appended to [acc]. *)
Definition align_onto (acc : list window) (label_times : list float)
  : result (list window) :=
  '(_, acc') <- for_each label_body (x_start sd, acc)
                         (enumerate label_times) ;;
  ret acc'.

Definition align (label_times : list float) : result (list window) :=
  align_onto [] label_times.

End Align.

(** ** Shuffling *)

(** [a[idx]]: the elements of [a] at the positions listed in [idx]. *)
Definition take_indices {A} (l : list A) (idx : list nat) : list A :=
  flat_map (fun i => match nth_error l i with
                     | Some a => [a]
                     | None => []
                     end) idx.

Section Shuffle.

(** The permutation of [0 .. n-1] drawn for [n] samples. *)
Variable rng : nat -> list nat.

(** Modelled from the spec: [sklearn.utils.shuffle] with one array.
    The routine is a library's and its code is not part of the
    sources; the spec has it permute the samples. *)
Definition shuffle1 {A} (a : list A) : result (list A) :=
  ret (take_indices a (rng (List.length a))).

(** Modelled from the spec: [sklearn.utils.shuffle] with two arrays.
    The spec has it apply the same permutation to both and fail with
    ConfigurationError when they differ in length. *)
Definition shuffle2 {A B} (a : list A) (b : list B)
  : result (list A * list B) :=
  if Nat.eqb (List.length a) (List.length b) then
    let p := rng (List.length a) in
    ret (take_indices a p, take_indices b p)
  else raise ConfigurationError.

End Shuffle.

(** ** [DataStreamer] *)

Definition Balancer : Type :=
  list window -> list String.string -> list window * list String.string.

Record DataStreamer : Type := mkDataStreamer {
  x_files : list (list row);
  y_files : option (list (list String.string));
  x_time_files : option (list (list float));
  y_time_files : option (list (list float));
  features : list window;
  n_features : option nat;
  labels : option (list String.string);
  n_samples : Z;
  sample_deltas : SamplingRate;
  do_shuffle : bool;
  class_balancer : option Balancer;
  batch_size : Z;
  index : Z
}.

(** Truth value of [self.y_files] and the like: [None] and the empty
    list are false. *)
Definition truthy {A} (o : option (list A)) : bool :=
  match o with
  | Some (_ :: _) => true
  | _ => false
  end.

Definition files_of {A} (o : option (list A)) : list A :=
  match o with
  | Some l => l
  | None => []
  end.

(** What the file loop of [initialize] carries from one file to the
    next: the attributes it updates and the two locals that are bound
    before the loop. *)
Record Loading : Type := mkLoading {
  ld_features : list window;
  ld_labels : list String.string;
  ld_n_features : option nat;
  ld_n_samples : Z;
  ld_feature_times : list float;
  ld_label_times : list float
}.

(** Body of [for file_index, x_file_path in enumerate(self.x_files)];
    [feats] is what [read_csv_file(x_file_path)] returns. *)
Definition file_body (ds : DataStreamer) (st : Loading)
           (f : nat * list row) : result Loading :=
  let '(file_index, feats) := f in
  r0 <- getitem feats 0 ;;
  lbls <- (if truthy (y_files ds)
           then ys <- getitem (files_of (y_files ds)) (Z.of_nat file_index) ;;
                ret (ld_labels st ++ ys)
           else ret (ld_labels st)) ;;
  ftimes <- (if truthy (x_time_files ds)
             then getitem (files_of (x_time_files ds)) (Z.of_nat file_index)
             else ret (ld_feature_times st)) ;;
  ltimes <- (if truthy (y_time_files ds)
             then getitem (files_of (y_time_files ds)) (Z.of_nat file_index)
             else ret (ld_label_times st)) ;;
  let ns := if truthy (y_time_files ds)
            then ld_n_samples st + len ltimes
            else ld_n_samples st in
  acc <- align_onto feats ftimes (sample_deltas ds) (ld_features st) ltimes ;;
  ret (mkLoading acc lbls (Some (List.length r0)) ns ftimes ltimes).

(** Lines 88-115. *)
Definition load_files (ds : DataStreamer) : result Loading :=
  for_each (file_body ds)
           (mkLoading [] [] (n_features ds) (n_samples ds) [] [])
           (enumerate (x_files ds)).

Section Initialize.

Variable rng : nat -> list nat.

(** Lines 119-123. *)
Definition shuffle_step (shuffle_flag : bool)
           (fl : list window * list String.string)
  : result (list window * list String.string) :=
  let '(f, l) := fl in
  if shuffle_flag then
    if negb (len l =? 0) then shuffle2 rng f l
    else f' <- shuffle1 rng f ;; ret (f', l)
  else ret (f, l).

(** Lines 124-125. *)
Definition balance_step (b : option Balancer)
           (fl : list window * list String.string)
  : list window * list String.string :=
  let '(f, l) := fl in
  match b with
  | Some balance => if negb (len l =? 0) then balance f l else (f, l)
  | None => (f, l)
  end.

Definition initialize (ds : DataStreamer) : result DataStreamer :=
  st <- load_files ds ;;
  fl <- shuffle_step (do_shuffle ds) (ld_features st, ld_labels st) ;;
  let '(f, l) := balance_step (class_balancer ds) fl in
  ret (mkDataStreamer (x_files ds) (y_files ds) (x_time_files ds)
                      (y_time_files ds) f (ld_n_features st) (Some l)
                      (ld_n_samples st) (sample_deltas ds) (do_shuffle ds)
                      (class_balancer ds) (batch_size ds) 0).

(** [__init__]: the attributes are set to their placeholders and
    [initialize] runs before the object is handed out, so [index] is
    an integer whenever [next] can be called. *)
Definition new_DataStreamer (x : list (list row))
           (y : option (list (list String.string)))
           (xt yt : option (list (list float)))
           (sd : SamplingRate) (shuffle_flag : bool)
           (b : option Balancer) (bs : Z) : result DataStreamer :=
  initialize (mkDataStreamer x y xt yt [] None None 0 sd shuffle_flag
                             b bs 0).

End Initialize.

(** [self.index = i] *)
Definition set_index (ds : DataStreamer) (i : Z) : DataStreamer :=
  mkDataStreamer (x_files ds) (y_files ds) (x_time_files ds)
                 (y_time_files ds) (features ds) (n_features ds)
                 (labels ds) (n_samples ds) (sample_deltas ds)
                 (do_shuffle ds) (class_balancer ds) (batch_size ds) i.

(** [next]: returns [(feature_samples, label_samples)] and the streamer
    with the cursor moved. *)
Definition next (ds : DataStreamer)
  : (list window * option (list String.string)) * DataStreamer :=
  let feature_samples :=
    slice (features ds) (index ds) (index ds + batch_size ds) in
  let label_samples :=
    match labels ds with
    | Some l => Some (slice l (index ds) (index ds + batch_size ds))
    | None => None
    end in
  ((feature_samples, label_samples),
   set_index ds (index ds + batch_size ds)).

(** The streamer after [k] calls of [next]. *)
Fixpoint after_calls (k : nat) (ds : DataStreamer) : DataStreamer :=
  match k with
  | O => ds
  | S k' => after_calls k' (snd (next ds))
  end.

(** ** The example of the end-to-end test *)

Definition ex_features : list row :=
  [[0%float]; [1%float]; [2%float]; [3%float]; [4%float]; [5%float]].
Definition ex_times : list float :=
  [0%float; 1%float; 2%float; 3%float; 4%float; 5%float].
Definition ex_spec (start : Z) : SamplingRate :=
  mkSamplingRate [(-2)%float; (-1)%float; 0%float] start 1 1.

(** A file of two rows read by a window of three offsets: the first two
    offsets match rows 0 and 1 and move the search position to 2. *)
Definition short_features : list row := [[0%float]; [1%float]].
Definition short_times : list float := [0%float; 1%float].
Definition short_spec : SamplingRate :=
  mkSamplingRate [(-1)%float; 0%float; 1%float] 0 1 1.

(** ** Alignment described label by label

    The description of the aligner in words: the window of the label
    with index [i] is searched from the base [start_index + i * stride],
    and every file group is aligned on its own, from its own times. *)

Fixpoint map_result {A B} (f : A -> result B) (l : list A)
  : result (list B) :=
  match l with
  | [] => ret []
  | a :: l' => b <- f a ;; bs <- map_result f l' ;; ret (b :: bs)
  end.

Definition window_of_label (feats : list row) (ftimes : list float)
           (sd : SamplingRate) (yt : nat * float) : result window :=
  build_window feats ftimes sd
               (x_start sd + Z.of_nat (fst yt) * step_size sd) (snd yt).

Definition align_by_base (feats : list row) (ftimes : list float)
           (sd : SamplingRate) (label_times : list float)
  : result (list window) :=
  map_result (window_of_label feats ftimes sd) (enumerate label_times).

(** The times of the group with index [file_index]: the file of that
    index when time files were given, no times otherwise. *)
Definition times_of_group (files : option (list (list float)))
           (file_index : nat) : result (list float) :=
  if truthy files then getitem (files_of files) (Z.of_nat file_index)
  else ret [].

Definition align_group_by_base (ds : DataStreamer) (f : nat * list row)
  : result (list window) :=
  ftimes <- times_of_group (x_time_files ds) (fst f) ;;
  ltimes <- times_of_group (y_time_files ds) (fst f) ;;
  align_by_base (snd f) ftimes (sample_deltas ds) ltimes.

(** Two groups that share a feature file; the first has labels at
    times 1 and 2, the second a label at time 1. *)
Definition two_groups : DataStreamer :=
  mkDataStreamer [ex_features; ex_features] None
                 (Some [ex_times; ex_times])
                 (Some [[1%float; 2%float]; [1%float]])
                 [] None None 0
                 (mkSamplingRate [(-1)%float; 0%float] 0 1 1)
                 false None 2 0.

Definition two_groups_loaded : Loading :=
  Eval vm_compute in
    match load_files two_groups with
    | inr st => st
    | inl _ => mkLoading [] [] None 0 [] []
    end.

(** ** Shape of an aligned array *)

(** [ws] has shape [(n_labels, w, n)]. *)
Definition has_shape (ws : list window) (n_labels w n : nat) : Prop :=
  List.length ws = n_labels
  /\ Forall (fun win => List.length win = w
                        /\ Forall (fun r : row => List.length r = n) win) ws.

(** A condition on the arguments alone under which no read of the
    alignment loops leaves the feature times: the steps are not
    negative, there is a feature row per feature time, and the last
    position the last window can reach is an index. *)
Definition stays_in_range (feats : list row) (ftimes : list float)
           (sd : SamplingRate) (label_times : list float) : Prop :=
  0 <= window_skip sd
  /\ 0 <= step_size sd
  /\ len feats = len ftimes
  /\ (0 < len label_times -> 0 < len (intervals sd) ->
      Z.max (x_start sd + (len label_times - 1) * step_size sd) 0
      + (len (intervals sd) - 1) * window_skip sd < len ftimes).

(** ** Example streamers *)

(** The draw that leaves the samples in place. *)
Definition in_order (n : nat) : list nat := seq 0 n.

Definition one_offset : SamplingRate := mkSamplingRate [0%float] 0 1 1.

(** Five labelled samples read two at a time. *)
Definition five_samples : DataStreamer :=
  mkDataStreamer [ex_features]
                 (Some [["a"; "b"; "a"; "b"; "a"]%string])
                 (Some [ex_times])
                 (Some [[0%float; 1%float; 2%float; 3%float; 4%float]])
                 [] None None 0 one_offset false None 2 0.

(** Five samples without label files. *)
Definition five_unlabelled : DataStreamer :=
  mkDataStreamer [ex_features] None
                 (Some [ex_times])
                 (Some [[0%float; 1%float; 2%float; 3%float; 4%float]])
                 [] None None 0 one_offset true None 2 0.

Definition initialized (ds : DataStreamer) : DataStreamer :=
  match initialize in_order ds with
  | inr ds' => ds'
  | inl _ => ds
  end.

Definition five_samples_ready : DataStreamer :=
  Eval vm_compute in initialized five_samples.

Definition five_unlabelled_ready : DataStreamer :=
  Eval vm_compute in initialized five_unlabelled.

(** Two feature files whose rows have one and two entries. *)
Definition narrow_file : list row := [[0%float]].
Definition wide_file : list row := [[0%float; 0%float]].

Definition streamer_of (files : list (list row)) : DataStreamer :=
  mkDataStreamer files None None None [] None None 0 one_offset false None
                 1 0.

(** Shuffling asked for, a label file without rows and one label
    time: one window and no labels. *)
Definition shuffled_without_labels : DataStreamer :=
  mkDataStreamer [ex_features] (Some [[]]) (Some [ex_times])
                 (Some [[0%float]])
                 [] None None 0 one_offset true None 1 0.

(** Shuffling asked for, two labels for one label time. *)
Definition shuffled_two_labels : DataStreamer :=
  mkDataStreamer [ex_features] (Some [["a"; "b"]%string]) (Some [ex_times])
                 (Some [[0%float]])
                 [] None None 0 one_offset true None 1 0.

Definition shuffled_two_labels_loaded : Loading :=
  Eval vm_compute in
    match load_files shuffled_two_labels with
    | inr st => st
    | inl _ => mkLoading [] [] None 0 [] []
    end.

(** The invariant of the two locals of the file loop: without time
    files the list carried from file to file is the initial empty one. *)
Definition times_carried (files : option (list (list float)))
           (carried : list float) : Prop :=
  truthy files = false -> carried = [].

(** A feature vector of [n] entries. *)
Definition wide (n : nat) (r : row) : Prop := List.length r = n.

(** ** Rows read at regular positions *)

(** [[features[i + k*skip] for k in range(n)]] *)
Fixpoint rows_by_skip (feats : list row) (i skip : Z) (n : nat)
  : result window :=
  match n with
  | O => ret []
  | S n' =>
      r <- getitem feats i ;;
      rs <- rows_by_skip feats (i + skip) skip n' ;;
      ret (r :: rs)
  end.

(** The example table searched backwards: [window_skip = -1]. *)
Definition backward_spec : SamplingRate :=
  mkSamplingRate [(-3)%float; 2%float] 0 (-1) 1.



Definition five_samples_loaded : Loading :=
  Eval vm_compute in
    match load_files five_samples with
    | inr st => st
    | inl _ => mkLoading [] [] None 0 [] []
    end.

(** The feature batch returned by call number [k] of [next]. *)
Definition feature_batch (ds : DataStreamer) (k : nat) : list window :=
  fst (fst (next (after_calls k ds))).

(** A streamer holding one window, read with [batch_size = 0]. *)
Definition one_window_no_batch : DataStreamer :=
  mkDataStreamer [narrow_file] None None None [[[1%float]]]
                 (Some 1%nat) (Some []) 0 one_offset false None 0 0.

(** ** Reading a file and naming the files *)

(** [read_csv_file] on the rows that the csv reader yields for the file:
    with [as_singles] the first field of each row is kept, otherwise the
    whole row. *)
Definition read_csv_file {A} (csv_reader : list (list A)) (as_singles : bool)
  : result (list (A + list A)) :=
  for_each (fun lines line =>
              if as_singles
              then x <- getitem line 0 ;; ret (lines ++ [inl x])
              else ret (lines ++ [inr line]))
           [] csv_reader.

Module Paths.

Import String.

Section Join.

(** [os.path.join] *)
Variable path_join : string -> string -> string.

(** ["%s%s.csv" % (prefix, suffix)] *)
Definition file_name (prefix suffix : string) : string :=
  (prefix ++ suffix ++ ".csv")%string.

Definition get_data_files_suffix (base_folder : string)
           (prefixes : list string) (suffix : string) : list string :=
  fold_left (fun file_paths prefix =>
               (file_paths ++ [path_join base_folder
                                         (file_name prefix suffix)])%list)
            prefixes [].

(** The dictionary returned by [get_data_files], one field per key. *)
Record data_files : Type := mk_data_files {
  x : list string;
  y : option (list string);
  x_time : list string;
  y_time : list string
}.

Definition get_data_files (base_folder : string) (prefixes : list string)
           (skip_y : bool) : data_files :=
  mk_data_files
    (get_data_files_suffix base_folder prefixes "x")
    (if skip_y then None
     else Some (get_data_files_suffix base_folder prefixes "y"))
    (get_data_files_suffix base_folder prefixes "x_time")
    (get_data_files_suffix base_folder prefixes "y_time").

End Join.

End Paths.

(** [[line[0] for line in rows]] over the rows that have a field. *)
Definition first_fields {A} (rows : list (list A)) : list A :=
  flat_map (fun line => match line with
                        | x :: _ => [x]
                        | [] => []
                        end) rows.

(** ** File groups that load *)

(** The group of feature file [f], at position [file_index], can be read
    and aligned: the file has a row, the files that go with it exist,
    and its search positions stay inside its feature times. *)
Definition group_loads (ds : DataStreamer) (file_index : nat)
           (f : list row) : Prop :=
  f <> []
  /\ (truthy (y_files ds) = true ->
      (file_index < List.length (files_of (y_files ds)))%nat)
  /\ exists ftimes ltimes,
      times_of_group (x_time_files ds) file_index = inr ftimes
      /\ times_of_group (y_time_files ds) file_index = inr ltimes
      /\ stays_in_range f ftimes (sample_deltas ds) ltimes.

(** [sd] with [x_start] replaced. *)
Definition with_x_start (sd : SamplingRate) (x : Z) : SamplingRate :=
  mkSamplingRate (intervals sd) x (window_skip sd) (step_size sd).

(** * Properties *)

(** ** The error monad and the loops *)

Lemma bind_inr {A B} (m : result A) (k : A -> result B) (b : B) :
  bind m k = inr b -> exists a, m = inr a /\ k a = inr b.
Proof.
  destruct m as [e | a]; simpl; intro H.
  - discriminate.
  - exists a. split; [reflexivity | exact H].
Qed.

Lemma for_each_app {S A} (body : S -> A -> result S) (l1 l2 : list A) :
  forall s,
    for_each body s (l1 ++ l2)
    = (s' <- for_each body s l1 ;; for_each body s' l2).
Proof.
  induction l1 as [| a l1 IH]; intro s; simpl.
  - reflexivity.
  - destruct (body s a) as [e | s1]; simpl; [reflexivity | apply IH].
Qed.

(** ** Indexing *)

Lemma len_nonneg {A} (l : list A) : 0 <= len l.
Proof. unfold len. lia. Qed.

Lemma getitem_front {A} (l : list A) (i : Z) :
  0 <= i < len l ->
  exists a, getitem l i = inr a /\ nth_error l (Z.to_nat i) = Some a.
Proof.
  intro Hi. unfold getitem.
  replace (i <? 0) with false by (symmetry; apply Z.ltb_ge; lia).
  replace (0 <=? i) with true by (symmetry; apply Z.leb_le; lia).
  replace (i <? len l) with true by (symmetry; apply Z.ltb_lt; lia).
  simpl.
  destruct (nth_error l (Z.to_nat i)) as [a |] eqn:E.
  - exists a. split; reflexivity.
  - apply nth_error_None in E. unfold len in *. lia.
Qed.

Lemma getitem_back {A} (l : list A) (i : Z) :
  - len l <= i < 0 ->
  exists a, getitem l i = inr a
            /\ nth_error l (Z.to_nat (i + len l)) = Some a.
Proof.
  intro Hi. unfold getitem.
  replace (i <? 0) with true by (symmetry; apply Z.ltb_lt; lia).
  replace (0 <=? i + len l) with true by (symmetry; apply Z.leb_le; lia).
  replace (i + len l <? len l) with true by (symmetry; apply Z.ltb_lt; lia).
  simpl.
  destruct (nth_error l (Z.to_nat (i + len l))) as [a |] eqn:E.
  - exists a. split; reflexivity.
  - apply nth_error_None in E. unfold len in *. lia.
Qed.

Lemma getitem_past_end {A} (l : list A) (i : Z) :
  len l <= i -> getitem l i = inl IndexError.
Proof.
  intro Hi. unfold getitem. pose proof (len_nonneg l) as Hl.
  replace (i <? 0) with false by (symmetry; apply Z.ltb_ge; lia).
  replace (i <? len l) with false by (symmetry; apply Z.ltb_ge; lia).
  rewrite andb_false_r. reflexivity.
Qed.

Lemma getitem_inr_range {A} (l : list A) (i : Z) (a : A) :
  getitem l i = inr a -> - len l <= i < len l.
Proof.
  intro H. pose proof (len_nonneg l) as Hl.
  destruct (Z_lt_le_dec i (- len l)) as [Hlo | Hlo].
  - exfalso. unfold getitem in H.
    replace (i <? 0) with true in H by (symmetry; apply Z.ltb_lt; lia).
    replace (0 <=? i + len l) with false in H
      by (symmetry; apply Z.leb_gt; lia).
    discriminate.
  - destruct (Z_lt_le_dec i (len l)) as [Hhi | Hhi]; [lia |].
    rewrite getitem_past_end in H by exact Hhi. discriminate.
Qed.

Lemma getitem_exn {A} (l : list A) (i : Z) (e : exn) :
  getitem l i = inl e -> e = IndexError.
Proof.
  unfold getitem, raise, ret.
  destruct ((0 <=? (if i <? 0 then i + len l else i))
            && ((if i <? 0 then i + len l else i) <? len l)).
  - destruct (nth_error l (Z.to_nat (if i <? 0 then i + len l else i)));
      intro H; [discriminate | congruence].
  - congruence.
Qed.

Lemma getitem_out_of_range {A} (l : list A) (i : Z) :
  ~ (- len l <= i < len l) -> getitem l i = inl IndexError.
Proof.
  intro Hi. destruct (getitem l i) as [e | a] eqn:E.
  - f_equal. eapply getitem_exn. exact E.
  - exfalso. apply Hi. eapply getitem_inr_range. exact E.
Qed.

(** ** One offset of a window *)

Section DeltaBody.

Variable feats : list row.
Variable ftimes : list float.
Variable sd : SamplingRate.
Variable y_time delta : float.
Variable window_index : Z.
Variable samples : window.

(** A position that [feature_times] can be indexed at, with a time
    within the tolerance: the row at that position is appended and the
    position moves by [window_skip]. *)
Lemma delta_body_match (x_time : float) (r : row) :
  getitem ftimes window_index = inr x_time ->
  within_tolerance y_time delta x_time = true ->
  getitem feats window_index = inr r ->
  delta_body feats ftimes sd y_time (window_index, samples) delta
  = inr (window_index + window_skip sd, samples ++ [r]).
Proof.
  intros Ht Hc Hf. unfold delta_body. rewrite Ht. simpl.
  apply getitem_inr_range in Ht.
  replace (window_index <? len ftimes) with true
    by (symmetry; apply Z.ltb_lt; lia).
  rewrite Hc, Hf. reflexivity.
Qed.

(** A position that can be indexed, with a time outside the tolerance:
    a row of zeros as wide as [features[0]] is appended and the
    position stays. *)
Lemma delta_body_miss (x_time : float) (r0 : row) :
  getitem ftimes window_index = inr x_time ->
  within_tolerance y_time delta x_time = false ->
  getitem feats 0 = inr r0 ->
  delta_body feats ftimes sd y_time (window_index, samples) delta
  = inr (window_index, samples ++ [repeat 0%float (List.length r0)]).
Proof.
  intros Ht Hc Hf. unfold delta_body. rewrite Ht. simpl.
  rewrite Hc, andb_false_r. unfold zero_row. rewrite Hf. reflexivity.
Qed.

(** A position outside [-len .. len-1]: the read of
    [feature_times[window_index]] raises before the bound is tested. *)
Lemma delta_body_out_of_range :
  ~ (- len ftimes <= window_index < len ftimes) ->
  delta_body feats ftimes sd y_time (window_index, samples) delta
  = inl IndexError.
Proof.
  intro Hi. unfold delta_body.
  rewrite getitem_out_of_range by exact Hi. reflexivity.
Qed.

End DeltaBody.

(** C1 (the code departs from the claim).  After the first two offsets
    of [short_spec] have matched rows 0 and 1 for the label at time 1,
    the search position is 2, which is not an index of the two feature
    times.  The claim asks for a row of zeros and an unchanged position
    here; the third offset raises [IndexError] instead. *)
Theorem delta_body_past_end_raises :
  delta_body short_features short_times short_spec 1%float
             (2, [[0%float]; [1%float]]) 1%float
  = inl IndexError.
Proof. vm_compute. reflexivity. Qed.

(** C2 (the code departs from the claim).  Aligning the label at time 1
    against the two-row file with offsets -1, 0, 1: the search position
    leaves the feature times at the third offset and the whole
    alignment raises [IndexError]; no zero-filled window is produced. *)
Theorem align_past_end_raises :
  align short_features short_times short_spec [1%float] = inl IndexError.
Proof. vm_compute. reflexivity. Qed.

(** ** The end-to-end example *)

Lemma float_0_neq_1 : 0%float <> 1%float.
Proof.
  intro H. apply (f_equal (fun x => PrimFloat.eqb x 0%float)) in H.
  vm_compute in H. discriminate.
Qed.

(** C3 (as stated, refuted).  With [start_index = 0] the window of the
    label at time 3 is not [[1],[2],[3]]. *)
Lemma example_window_not_123 :
  align ex_features ex_times (ex_spec 0) [3%float]
  <> inr [[[1%float]; [2%float]; [3%float]]].
Proof.
  vm_compute. intro H. apply float_0_neq_1. congruence.
Qed.

(** C3 (amended).  With [start_index = 0] the search position stays at
    row 0, whose time 0 is none of the targets 1, 2, 3, so the window is
    three rows of zeros; the window [[1],[2],[3]] is the one produced
    with [start_index = 1]. *)
Theorem example_window :
  align ex_features ex_times (ex_spec 0) [3%float]
  = inr [[[0%float]; [0%float]; [0%float]]]
  /\ align ex_features ex_times (ex_spec 1) [3%float]
     = inr [[[1%float]; [2%float]; [3%float]]].
Proof. split; vm_compute; reflexivity. Qed.

(** ** The base of each window and the independence of file groups *)

Section LabelLoop.

Variable feats : list row.
Variable ftimes : list float.
Variable sd : SamplingRate.

Lemma label_loop_by_base (l : list float) :
  forall (i : nat) (acc : list window),
    for_each (label_body feats ftimes sd)
             (x_start sd + Z.of_nat i * step_size sd, acc)
             (enumerate_from i l)
    = (ws <- map_result (window_of_label feats ftimes sd)
                        (enumerate_from i l) ;;
       ret (x_start sd + Z.of_nat (i + List.length l) * step_size sd,
            acc ++ ws)).
Proof.
  induction l as [| t l IH]; intros i acc; simpl.
  - rewrite Nat.add_0_r, app_nil_r. reflexivity.
  - unfold window_of_label at 1. simpl.
    destruct (build_window feats ftimes sd
                           (x_start sd + Z.of_nat i * step_size sd) t)
      as [e | w]; simpl; [reflexivity |].
    replace (x_start sd + Z.of_nat i * step_size sd + step_size sd)
      with (x_start sd + Z.of_nat (S i) * step_size sd) by lia.
    rewrite IH.
    destruct (map_result (window_of_label feats ftimes sd)
                         (enumerate_from (S i) l)) as [e | ws]; simpl;
      [reflexivity |].
    rewrite <- app_assoc. simpl.
    replace (i + S (List.length l))%nat
      with (S i + List.length l)%nat by lia.
    reflexivity.
Qed.

(** The loop over the labels of one file, exceptions included, is the
    label-by-label description: the base of window [i] is
    [x_start + i * step_size] whatever the earlier windows matched. *)
Lemma align_onto_by_base (acc : list window) (label_times : list float) :
  align_onto feats ftimes sd acc label_times
  = (ws <- align_by_base feats ftimes sd label_times ;; ret (acc ++ ws)).
Proof.
  unfold align_onto, align_by_base, enumerate.
  pose proof (label_loop_by_base label_times 0 acc) as H.
  simpl in H. rewrite Z.add_0_r in H. rewrite H.
  destruct (map_result (window_of_label feats ftimes sd)
                       (enumerate_from 0 label_times)); reflexivity.
Qed.

Lemma align_is_align_by_base (label_times : list float) :
  align feats ftimes sd label_times
  = align_by_base feats ftimes sd label_times.
Proof.
  unfold align. rewrite align_onto_by_base.
  destruct (align_by_base feats ftimes sd label_times); reflexivity.
Qed.

End LabelLoop.

Lemma file_body_inr (ds : DataStreamer) (st0 st1 : Loading)
      (f : nat * list row) :
  times_carried (x_time_files ds) (ld_feature_times st0) ->
  times_carried (y_time_files ds) (ld_label_times st0) ->
  file_body ds st0 f = inr st1 ->
  times_carried (x_time_files ds) (ld_feature_times st1)
  /\ times_carried (y_time_files ds) (ld_label_times st1)
  /\ exists ws, align_group_by_base ds f = inr ws
                /\ ld_features st1 = ld_features st0 ++ ws.
Proof.
  intros Hx Hy H. destruct f as [file_index feats]. unfold file_body in H.
  apply bind_inr in H. destruct H as [r0 [_ H]].
  apply bind_inr in H. destruct H as [lbls [_ H]].
  apply bind_inr in H. destruct H as [ft [Hft H]].
  apply bind_inr in H. destruct H as [lt [Hlt H]].
  apply bind_inr in H. destruct H as [acc [Hacc H]].
  injection H as <-. simpl.
  assert (Eft : times_of_group (x_time_files ds) file_index = inr ft).
  { unfold times_of_group.
    destruct (truthy (x_time_files ds)) eqn:E; [exact Hft |].
    rewrite (Hx E) in Hft. exact Hft. }
  assert (Elt : times_of_group (y_time_files ds) file_index = inr lt).
  { unfold times_of_group.
    destruct (truthy (y_time_files ds)) eqn:E; [exact Hlt |].
    rewrite (Hy E) in Hlt. exact Hlt. }
  split; [| split].
  - intro E. unfold times_of_group in Eft. rewrite E in Eft.
    injection Eft as <-. reflexivity.
  - intro E. unfold times_of_group in Elt. rewrite E in Elt.
    injection Elt as <-. reflexivity.
  - rewrite align_onto_by_base in Hacc.
    apply bind_inr in Hacc. destruct Hacc as [ws [Hws Hacc]].
    injection Hacc as <-.
    exists ws. split; [| reflexivity].
    unfold align_group_by_base. simpl. rewrite Eft, Elt. exact Hws.
Qed.

Lemma file_loop_concat (ds : DataStreamer) (fs : list (nat * list row)) :
  forall st0 st,
    times_carried (x_time_files ds) (ld_feature_times st0) ->
    times_carried (y_time_files ds) (ld_label_times st0) ->
    for_each (file_body ds) st0 fs = inr st ->
    exists wss, map_result (align_group_by_base ds) fs = inr wss
                /\ ld_features st = ld_features st0 ++ concat wss.
Proof.
  induction fs as [| f fs IH]; intros st0 st Hx Hy H; simpl in H.
  - injection H as <-. exists []. simpl. rewrite app_nil_r.
    split; reflexivity.
  - apply bind_inr in H. destruct H as [st1 [H1 H]].
    destruct (file_body_inr ds st0 st1 f Hx Hy H1)
      as [Hx1 [Hy1 [ws [Hws Hf]]]].
    destruct (IH st1 st Hx1 Hy1 H) as [wss [Hwss Hfs]].
    exists (ws :: wss). simpl. rewrite Hws, Hwss. simpl.
    split; [reflexivity |].
    rewrite Hfs, Hf, app_assoc. reflexivity.
Qed.

(** C4.  When the files load, the windows are the concatenation, in
    file order, of the windows of each group aligned on its own, and
    within a group the window of label [i] is searched from the base
    [x_start + i * step_size]: the base does not depend on what earlier
    windows matched and starts again from [x_start] in every group. *)
Theorem groups_aligned_from_start_index (ds : DataStreamer) (st : Loading) :
  load_files ds = inr st ->
  exists wss,
    map_result (align_group_by_base ds) (enumerate (x_files ds)) = inr wss
    /\ ld_features st = concat wss.
Proof.
  intro H. unfold load_files in H.
  apply file_loop_concat in H; [exact H | |]; intro; reflexivity.
Qed.

Lemma groups_aligned_from_start_index_witness :
  exists wss,
    map_result (align_group_by_base two_groups)
               (enumerate (x_files two_groups)) = inr wss
    /\ ld_features two_groups_loaded = concat wss.
Proof.
  apply (groups_aligned_from_start_index two_groups two_groups_loaded).
  vm_compute. reflexivity.
Defined.

(** ** Shape of the aligned windows *)

Lemma getitem_In {A} (l : list A) (i : Z) (a : A) :
  getitem l i = inr a -> In a l.
Proof.
  unfold getitem, ret, raise.
  destruct ((0 <=? (if i <? 0 then i + len l else i))
            && ((if i <? 0 then i + len l else i) <? len l));
    [| discriminate].
  destruct (nth_error l (Z.to_nat (if i <? 0 then i + len l else i)))
    as [b |] eqn:E; [| discriminate].
  intro H. injection H as <-. eapply nth_error_In. exact E.
Qed.

Section Shape.

Variable feats : list row.
Variable ftimes : list float.
Variable sd : SamplingRate.
Variable n : nat.
Hypothesis rectangular : Forall (fun r : row => List.length r = n) feats.

Lemma getitem_wide (i : Z) (r : row) : getitem feats i = inr r -> wide n r.
Proof.
  intro H. apply getitem_In in H.
  eapply (proj1 (Forall_forall _ _) rectangular). exact H.
Qed.

Lemma delta_body_shape (y_time delta : float) (i i' : Z)
      (samples samples' : window) :
  delta_body feats ftimes sd y_time (i, samples) delta = inr (i', samples') ->
  exists r, samples' = samples ++ [r] /\ wide n r.
Proof.
  unfold delta_body. intro H.
  apply bind_inr in H. destruct H as [x_time [_ H]].
  destruct ((i <? len ftimes) && within_tolerance y_time delta x_time).
  - apply bind_inr in H. destruct H as [r [Hr H]].
    injection H as _ <-. exists r. split; [reflexivity |].
    eapply getitem_wide. exact Hr.
  - apply bind_inr in H. destruct H as [z [Hz H]].
    injection H as _ <-. exists z. split; [reflexivity |].
    unfold zero_row in Hz.
    apply bind_inr in Hz. destruct Hz as [r0 [Hr0 Hz]].
    injection Hz as <-. unfold wide. rewrite repeat_length.
    eapply getitem_wide. exact Hr0.
Qed.

Lemma delta_loop_shape (y_time : float) (deltas : list float) :
  forall i i' samples samples',
    Forall (wide n) samples ->
    for_each (delta_body feats ftimes sd y_time) (i, samples) deltas
    = inr (i', samples') ->
    List.length samples' = (List.length samples + List.length deltas)%nat
    /\ Forall (wide n) samples'.
Proof.
  induction deltas as [| d deltas IH]; intros i i' samples samples' Hs H;
    simpl in H.
  - injection H as _ <-. split; [simpl; lia | exact Hs].
  - apply bind_inr in H. destruct H as [[i1 s1] [H1 H]].
    apply delta_body_shape in H1. destruct H1 as [r [-> Hr]].
    apply IH in H.
    + destruct H as [Hl Hw]. split; [| exact Hw].
      rewrite Hl, length_app. simpl. lia.
    + apply Forall_app. split; [exact Hs |].
      constructor; [exact Hr | constructor].
Qed.

Lemma build_window_shape (x_index : Z) (y_time : float) (w : window) :
  build_window feats ftimes sd x_index y_time = inr w ->
  List.length w = window_size sd /\ Forall (wide n) w.
Proof.
  unfold build_window. intro H.
  apply bind_inr in H. destruct H as [[i' s'] [H1 H]].
  injection H as <-.
  apply delta_loop_shape in H1; [| constructor].
  exact H1.
Qed.

Lemma map_windows_shape (yts : list (nat * float)) :
  forall ws,
    map_result (window_of_label feats ftimes sd) yts = inr ws ->
    has_shape ws (List.length yts) (window_size sd) n.
Proof.
  induction yts as [| yt yts IH]; intros ws H; simpl in H.
  - injection H as <-. split; [reflexivity | constructor].
  - apply bind_inr in H. destruct H as [w [Hw H]].
    apply bind_inr in H. destruct H as [ws' [Hws H]].
    injection H as <-.
    apply build_window_shape in Hw.
    destruct (IH ws' Hws) as [Hl Hf].
    split; [simpl; rewrite Hl; reflexivity |].
    constructor; [exact Hw | exact Hf].
Qed.

End Shape.

Lemma enumerate_from_length {A} (l : list A) :
  forall i, List.length (enumerate_from i l) = List.length l.
Proof.
  induction l as [| a l IH]; intro i; simpl; [| rewrite IH]; reflexivity.
Qed.

(** ** Inputs on which the alignment returns *)

Lemma len_cons {A} (a : A) (l : list A) : len (a :: l) = len l + 1.
Proof. unfold len. simpl List.length. lia. Qed.

Section Total.

Variable feats : list row.
Variable ftimes : list float.
Variable sd : SamplingRate.
Hypothesis skip_nonneg : 0 <= window_skip sd.
Hypothesis step_nonneg : 0 <= step_size sd.
Hypothesis row_per_time : len feats = len ftimes.

Lemma delta_loop_total (y_time : float) (deltas : list float) :
  forall i samples,
    0 <= i ->
    (0 < len deltas ->
     i + (len deltas - 1) * window_skip sd < len ftimes) ->
    exists st,
      for_each (delta_body feats ftimes sd y_time) (i, samples) deltas
      = inr st.
Proof.
  induction deltas as [| d deltas IH]; intros i samples Hi Hb;
    cbn [for_each].
  - eexists. reflexivity.
  - rewrite len_cons in Hb. pose proof (len_nonneg deltas) as Hd.
    assert (Hm : 0 <= len deltas * window_skip sd)
      by (apply Z.mul_nonneg_nonneg; assumption).
    assert (Hlt : i + len deltas * window_skip sd < len ftimes)
      by (replace (len deltas * window_skip sd)
            with ((len deltas + 1 - 1) * window_skip sd) by ring;
          apply Hb; lia).
    destruct (getitem_front ftimes i) as [x_time [Hx _]]; [lia |].
    destruct (within_tolerance y_time d x_time) eqn:Hc.
    + destruct (getitem_front feats i) as [r [Hr _]]; [lia |].
      rewrite (delta_body_match feats ftimes sd y_time d i samples
                                x_time r Hx Hc Hr).
      cbn [bind]. apply IH; [lia |]. intros _.
      replace (i + window_skip sd + (len deltas - 1) * window_skip sd)
        with (i + len deltas * window_skip sd) by ring.
      exact Hlt.
    + destruct (getitem_front feats 0) as [r0 [Hr0 _]]; [lia |].
      rewrite (delta_body_miss feats ftimes sd y_time d i samples
                               x_time r0 Hx Hc Hr0).
      cbn [bind]. apply IH; [lia |]. intros _.
      replace ((len deltas - 1) * window_skip sd)
        with (len deltas * window_skip sd - window_skip sd) by ring.
      lia.
Qed.

Lemma build_window_total (x : Z) (y_time : float) :
  (0 < len (intervals sd) ->
   Z.max x 0 + (len (intervals sd) - 1) * window_skip sd < len ftimes) ->
  exists w, build_window feats ftimes sd x y_time = inr w.
Proof.
  intro Hb. unfold build_window.
  destruct (delta_loop_total y_time (intervals sd) (Z.max x 0) [])
    as [[i' w] Hw]; [lia | exact Hb |].
  exists w. rewrite Hw. reflexivity.
Qed.

Lemma label_loop_total (l : list float) :
  forall i x acc,
    (0 < len l -> 0 < len (intervals sd) ->
     Z.max (x + (len l - 1) * step_size sd) 0
     + (len (intervals sd) - 1) * window_skip sd < len ftimes) ->
    exists st,
      for_each (label_body feats ftimes sd) (x, acc) (enumerate_from i l)
      = inr st.
Proof.
  induction l as [| t l IH]; intros i x acc Hb;
    cbn [for_each enumerate_from].
  - eexists. reflexivity.
  - rewrite len_cons in Hb. pose proof (len_nonneg l) as Hl.
    assert (Hm : 0 <= len l * step_size sd)
      by (apply Z.mul_nonneg_nonneg; assumption).
    replace ((len l + 1 - 1) * step_size sd)
      with (len l * step_size sd) in Hb by ring.
    destruct (build_window_total x t) as [w Hw].
    { intro HW. specialize (Hb ltac:(lia) HW). lia. }
    change (label_body feats ftimes sd (x, acc) (i, t))
      with (samples <- build_window feats ftimes sd x t ;;
            ret (x + step_size sd, acc ++ [samples])).
    rewrite Hw. cbn [bind ret]. apply IH. intros H0 HW.
    replace (x + step_size sd + (len l - 1) * step_size sd)
      with (x + len l * step_size sd) by ring.
    apply Hb; [lia | exact HW].
Qed.

End Total.

Lemma align_total (feats : list row) (ftimes : list float)
      (sd : SamplingRate) (label_times : list float) :
  stays_in_range feats ftimes sd label_times ->
  exists ws, align feats ftimes sd label_times = inr ws.
Proof.
  intros [Hk [Hs [Hr Hb]]]. unfold align, align_onto.
  destruct (label_loop_total feats ftimes sd Hk Hs Hr label_times
                             0%nat (x_start sd) [] Hb) as [[x ws] H].
  unfold enumerate. rewrite H. simpl. exists ws. reflexivity.
Qed.

(** C5.  Whenever every row of the feature table has [n] entries, the
    array that alignment returns has shape
    [(len(label_times), W, n)], whichever positions matched and
    whichever were filled with zeros; and alignment does return on
    every input whose search positions stay inside the feature times. *)
Theorem align_shape (feats : list row) (ftimes : list float)
        (sd : SamplingRate) (label_times : list float) (n : nat) :
  Forall (fun r : row => List.length r = n) feats ->
  (forall ws,
      align feats ftimes sd label_times = inr ws ->
      has_shape ws (List.length label_times) (window_size sd) n)
  /\ (stays_in_range feats ftimes sd label_times ->
      exists ws, align feats ftimes sd label_times = inr ws).
Proof.
  intro Hrect. split.
  - intros ws H. rewrite align_is_align_by_base in H.
    unfold align_by_base in H.
    apply (map_windows_shape feats ftimes sd n Hrect) in H.
    unfold enumerate in H. rewrite enumerate_from_length in H. exact H.
  - apply align_total.
Qed.

Lemma align_shape_witness :
  has_shape [[[0%float]; [0%float]; [0%float]]] 1 3 1.
Proof.
  refine (proj1 (align_shape ex_features ex_times (ex_spec 0) [3%float] 1%nat
                             _) _ _).
  - repeat constructor.
  - vm_compute. reflexivity.
Defined.

(** ** The batch cursor *)

Lemma after_calls_fields (k : nat) :
  forall ds,
    features (after_calls k ds) = features ds
    /\ labels (after_calls k ds) = labels ds
    /\ batch_size (after_calls k ds) = batch_size ds
    /\ index (after_calls k ds) = index ds + Z.of_nat k * batch_size ds.
Proof.
  induction k as [| k IH]; intro ds; cbn [after_calls].
  - repeat split; lia.
  - destruct (IH (snd (next ds))) as [Hf [Hl [Hb Hi]]].
    rewrite Hf, Hl, Hb, Hi, Nat2Z.inj_succ.
    unfold next, set_index. cbn [snd features labels batch_size index].
    repeat split; ring.
Qed.

Lemma initialize_inr (rng : nat -> list nat) (ds0 ds : DataStreamer) :
  initialize rng ds0 = inr ds ->
  exists st f l,
    load_files ds0 = inr st
    /\ shuffle_step rng (do_shuffle ds0) (ld_features st, ld_labels st)
       = inr (f, l)
    /\ ds = (let '(f', l') := balance_step (class_balancer ds0) (f, l) in
             mkDataStreamer (x_files ds0) (y_files ds0) (x_time_files ds0)
                            (y_time_files ds0) f' (ld_n_features st)
                            (Some l') (ld_n_samples st) (sample_deltas ds0)
                            (do_shuffle ds0) (class_balancer ds0)
                            (batch_size ds0) 0).
Proof.
  unfold initialize. intro H.
  apply bind_inr in H. destruct H as [st [Hst H]].
  apply bind_inr in H. destruct H as [[f l] [Hfl H]].
  exists st, f, l. split; [exact Hst | split; [exact Hfl |]].
  destruct (balance_step (class_balancer ds0) (f, l)) as [f' l'].
  injection H as <-. reflexivity.
Qed.

Lemma initialize_fields (rng : nat -> list nat) (ds0 ds : DataStreamer) :
  initialize rng ds0 = inr ds ->
  index ds = 0
  /\ batch_size ds = batch_size ds0
  /\ exists l, labels ds = Some l.
Proof.
  intro H. apply initialize_inr in H.
  destruct H as [st [f [l [_ [_ ->]]]]].
  destruct (balance_step (class_balancer ds0) (f, l)) as [f' l'].
  simpl. repeat split. exists l'. reflexivity.
Qed.

Lemma batch_sizes_2_2_1_0 {A} (l : list A) :
  List.length l = 5%nat ->
  map (fun k => List.length (slice l (Z.of_nat k * 2) (Z.of_nat k * 2 + 2)))
      [0; 1; 2; 3]%nat
  = [2; 2; 1; 0]%nat.
Proof.
  intro H.
  destruct l as [| a0 [| a1 [| a2 [| a3 [| a4 [| a5 l]]]]]];
    try discriminate.
  reflexivity.
Qed.

(** C6.  After [initialize] the cursor is 0.  From there the call of
    [next] number [k] returns the slice
    [features[k*batch_size : k*batch_size + batch_size]] with the slice
    of the labels over the same bounds, and moves the cursor by
    [batch_size] whether or not that many samples remain.  Over five
    samples with [batch_size = 2] the first four batches have sizes
    2, 2, 1 and 0. *)
Theorem next_batch_sequence (rng : nat -> list nat)
        (ds0 ds : DataStreamer) (k : nat) :
  initialize rng ds0 = inr ds ->
  index ds = 0
  /\ (let c := Z.of_nat k * batch_size ds in
      let dk := after_calls k ds in
      index dk = c
      /\ fst (next dk)
         = (slice (features ds) c (c + batch_size ds),
            option_map (fun l => slice l c (c + batch_size ds)) (labels ds))
      /\ (exists l, snd (fst (next dk)) = Some l)
      /\ index (snd (next dk)) = c + batch_size ds)
  /\ (List.length (features ds) = 5%nat -> batch_size ds = 2 ->
      map (fun j => List.length (fst (fst (next (after_calls j ds)))))
          [0; 1; 2; 3]%nat
      = [2; 2; 1; 0]%nat).
Proof.
  intro H. destruct (initialize_fields rng ds0 ds H) as [Hi [_ [l Hl]]].
  assert (Hnext : forall j,
             let c := Z.of_nat j * batch_size ds in
             index (after_calls j ds) = c
             /\ fst (next (after_calls j ds))
                = (slice (features ds) c (c + batch_size ds),
                   option_map (fun l => slice l c (c + batch_size ds))
                              (labels ds))).
  { intro j. destruct (after_calls_fields j ds) as [Hf [Hlb [Hb Hx]]].
    rewrite Hi in Hx. simpl in Hx. cbv zeta. split; [exact Hx |].
    unfold next. rewrite Hf, Hlb, Hb, Hx. simpl.
    destruct (labels ds); reflexivity. }
  split; [exact Hi | split].
  - cbv zeta. destruct (Hnext k) as [Hx Hn].
    split; [exact Hx | split; [exact Hn | split]].
    + rewrite Hn, Hl. simpl. eexists. reflexivity.
    + unfold next. simpl.
      destruct (after_calls_fields k ds) as [_ [_ [Hb _]]].
      rewrite Hx, Hb. reflexivity.
  - intros H5 H2. rewrite <- (batch_sizes_2_2_1_0 (features ds) H5).
    apply map_ext. intro j. destruct (Hnext j) as [_ Hn].
    rewrite Hn, H2. reflexivity.
Qed.

Lemma next_batch_sequence_witness :
  initialize in_order five_samples = inr five_samples_ready
  /\ index five_samples_ready = 0
  /\ map (fun j => List.length
                     (fst (fst (next (after_calls j five_samples_ready)))))
         [0; 1; 2; 3]%nat
     = [2; 2; 1; 0]%nat.
Proof.
  assert (H : initialize in_order five_samples = inr five_samples_ready)
    by (vm_compute; reflexivity).
  destruct (next_batch_sequence in_order five_samples five_samples_ready
                                2%nat H) as [Hi [_ Hs]].
  split; [exact H | split; [exact Hi |]].
  apply Hs; reflexivity.
Defined.

(** ** Streamers without label files *)

Lemma file_loop_no_labels (ds : DataStreamer) (fs : list (nat * list row)) :
  truthy (y_files ds) = false ->
  forall st0 st,
    ld_labels st0 = [] ->
    for_each (file_body ds) st0 fs = inr st ->
    ld_labels st = [].
Proof.
  intro Hy. induction fs as [| [i feats] fs IH]; intros st0 st H0 H;
    cbn [for_each] in H.
  - injection H as <-. exact H0.
  - apply bind_inr in H. destruct H as [st1 [H1 H]].
    apply (IH st1 st); [| exact H].
    unfold file_body in H1. rewrite Hy in H1.
    apply bind_inr in H1. destruct H1 as [r0 [_ H1]].
    cbn [bind ret] in H1.
    apply bind_inr in H1. destruct H1 as [ft [_ H1]].
    apply bind_inr in H1. destruct H1 as [lt [_ H1]].
    apply bind_inr in H1. destruct H1 as [acc [_ H1]].
    injection H1 as <-. exact H0.
Qed.

Lemma slice_nil {A} (a b : Z) : slice (@nil A) a b = [].
Proof. unfold slice. rewrite skipn_nil. apply firstn_nil. Qed.

(** C10.  Without label files [initialize] leaves [labels] as the empty
    list, not as [None], and [next] returns an empty label slice at
    every cursor position. *)
Theorem no_label_files_empty_labels (rng : nat -> list nat)
        (ds0 ds : DataStreamer) :
  truthy (y_files ds0) = false ->
  initialize rng ds0 = inr ds ->
  labels ds = Some []
  /\ forall c : Z, snd (fst (next (set_index ds c))) = Some [].
Proof.
  intros Hy H. apply initialize_inr in H.
  destruct H as [st [f [l [Hst [Hsh ->]]]]].
  assert (Hl : ld_labels st = []).
  { unfold load_files in Hst.
    eapply (file_loop_no_labels ds0 _ Hy); [| exact Hst]. reflexivity. }
  rewrite Hl in Hsh.
  assert (El : l = []).
  { unfold shuffle_step in Hsh. destruct (do_shuffle ds0).
    - cbn in Hsh. injection Hsh as _ <-. reflexivity.
    - injection Hsh as _ <-. reflexivity. }
  subst l.
  assert (Eb : balance_step (class_balancer ds0) (f, []) = (f, [])).
  { unfold balance_step. destruct (class_balancer ds0); reflexivity. }
  rewrite Eb. split; [reflexivity |].
  intro c. unfold next, set_index. cbn [labels fst snd index batch_size].
  rewrite slice_nil. reflexivity.
Qed.

Lemma no_label_files_empty_labels_witness :
  truthy (y_files five_unlabelled) = false
  /\ initialize in_order five_unlabelled = inr five_unlabelled_ready
  /\ labels five_unlabelled_ready = Some []
  /\ snd (fst (next (set_index five_unlabelled_ready 2))) = Some [].
Proof.
  assert (Hy : truthy (y_files five_unlabelled) = false) by reflexivity.
  assert (H : initialize in_order five_unlabelled
              = inr five_unlabelled_ready) by (vm_compute; reflexivity).
  destruct (no_label_files_empty_labels in_order five_unlabelled
                                        five_unlabelled_ready Hy H)
    as [Hl Hn].
  split; [exact Hy | split; [exact H | split; [exact Hl | apply Hn]]].
Defined.

(** ** The feature width recorded while loading *)

Lemma enumerate_from_app {A} (l1 l2 : list A) :
  forall i,
    enumerate_from i (l1 ++ l2)
    = enumerate_from i l1 ++ enumerate_from (i + List.length l1) l2.
Proof.
  induction l1 as [| a l1 IH]; intro i; simpl.
  - rewrite Nat.add_0_r. reflexivity.
  - rewrite IH. replace (S i + List.length l1)%nat
      with (i + S (List.length l1))%nat by lia.
    reflexivity.
Qed.

Lemma getitem_0_inr {A} (l : list A) (a : A) :
  getitem l 0 = inr a -> exists rest, l = a :: rest.
Proof.
  destruct l as [| b rest]; intro H.
  - discriminate.
  - injection H as <-. exists rest. reflexivity.
Qed.

Lemma file_body_n_features (ds : DataStreamer) (st0 st : Loading)
      (i : nat) (f : list row) :
  file_body ds st0 (i, f) = inr st ->
  exists r0 rest, f = r0 :: rest /\ ld_n_features st = Some (List.length r0).
Proof.
  unfold file_body. intro H.
  apply bind_inr in H. destruct H as [r0 [Hr0 H]].
  apply bind_inr in H. destruct H as [lbls [_ H]].
  apply bind_inr in H. destruct H as [ft [_ H]].
  apply bind_inr in H. destruct H as [lt [_ H]].
  apply bind_inr in H. destruct H as [acc [_ H]].
  injection H as <-.
  apply getitem_0_inr in Hr0. destruct Hr0 as [rest ->].
  exists r0, rest. split; reflexivity.
Qed.

(** C7 (as stated, refuted).  Loading the narrow file alone records the
    width 1; loading the wide file after it changes the record. *)
Lemma n_features_changes_with_later_file :
  exists d1 d2,
    initialize in_order (streamer_of [narrow_file]) = inr d1
    /\ initialize in_order (streamer_of [narrow_file; wide_file]) = inr d2
    /\ n_features d1 = Some 1%nat
    /\ n_features d2 <> n_features d1.
Proof.
  eexists. eexists.
  split; [vm_compute; reflexivity |].
  split; [vm_compute; reflexivity |].
  split; [reflexivity | discriminate].
Qed.

(** C7 (amended).  [n_features] is assigned again for every file: once
    a non-empty sequence of files is loaded it is the number of entries
    of the first row of the last file. *)
Theorem n_features_of_last_file (rng : nat -> list nat)
        (ds0 ds : DataStreamer) (files : list (list row)) (f : list row) :
  x_files ds0 = files ++ [f] ->
  initialize rng ds0 = inr ds ->
  exists r0 rest, f = r0 :: rest /\ n_features ds = Some (List.length r0).
Proof.
  intros Hx H. apply initialize_inr in H.
  destruct H as [st [fs [l [Hst [_ ->]]]]].
  unfold load_files, enumerate in Hst.
  rewrite Hx, enumerate_from_app, for_each_app in Hst.
  apply bind_inr in Hst. destruct Hst as [st1 [_ Hst]].
  cbn [enumerate_from for_each] in Hst.
  apply bind_inr in Hst. destruct Hst as [st2 [H2 Hst]].
  injection Hst as <-.
  apply file_body_n_features in H2. destruct H2 as [r0 [rest [-> Hn]]].
  exists r0, rest. split; [reflexivity |].
  destruct (balance_step (class_balancer ds0) (fs, l)). exact Hn.
Qed.

Lemma n_features_of_last_file_witness :
  exists r0 rest,
    wide_file = r0 :: rest
    /\ n_features (initialized (streamer_of [narrow_file; wide_file]))
       = Some (List.length r0).
Proof.
  apply (n_features_of_last_file
           in_order (streamer_of [narrow_file; wide_file])
           (initialized (streamer_of [narrow_file; wide_file]))
           [narrow_file] wide_file).
  - reflexivity.
  - vm_compute. reflexivity.
Defined.

(** ** Shuffling *)

Lemma take_indices_in_order_from {A} (l : list A) :
  forall pre, take_indices (pre ++ l) (seq (List.length pre) (List.length l))
              = l.
Proof.
  induction l as [| a l IH]; intro pre; simpl.
  - reflexivity.
  - rewrite nth_error_app2 by lia. rewrite Nat.sub_diag. simpl. f_equal.
    specialize (IH (pre ++ [a])).
    rewrite <- app_assoc, length_app in IH. simpl in IH.
    rewrite Nat.add_1_r in IH. exact IH.
Qed.

Lemma take_indices_in_order {A} (l : list A) :
  take_indices l (seq 0 (List.length l)) = l.
Proof. exact (take_indices_in_order_from l []). Qed.

Lemma take_indices_permutation {A} (l : list A) (p : list nat) :
  Permutation p (seq 0 (List.length l)) ->
  Permutation (take_indices l p) l.
Proof.
  intro H. rewrite <- (take_indices_in_order l) at 2.
  unfold take_indices. apply Permutation_flat_map. exact H.
Qed.

Lemma nth_error_combine {A B} (a : list A) :
  forall (b : list B) (i : nat),
    nth_error (combine a b) i
    = match nth_error a i, nth_error b i with
      | Some x, Some y => Some (x, y)
      | _, _ => None
      end.
Proof.
  induction a as [| x a IH]; intros b i.
  - destruct i; reflexivity.
  - destruct b as [| y b].
    + destruct i; simpl; [reflexivity |].
      destruct (nth_error a i); reflexivity.
    + destruct i; simpl; [reflexivity | apply IH].
Qed.

Lemma take_indices_combine {A B} (a : list A) (b : list B) (p : list nat) :
  List.length a = List.length b ->
  take_indices (combine a b) p
  = combine (take_indices a p) (take_indices b p).
Proof.
  intro Hab. induction p as [| i p IH]; simpl.
  - reflexivity.
  - rewrite IH, nth_error_combine.
    destruct (nth_error a i) as [x |] eqn:Ea;
      destruct (nth_error b i) as [y |] eqn:Eb; simpl; try reflexivity.
    + apply nth_error_None in Eb.
      assert (i < List.length a)%nat
        by (apply nth_error_Some; congruence).
      lia.
    + apply nth_error_None in Ea.
      assert (i < List.length b)%nat
        by (apply nth_error_Some; congruence).
      lia.
Qed.

(** C8.  When every draw is a permutation of the sample positions, the
    shuffle step applies one draw to the windows and to the labels:
    with labels, the pairs (window, label) after the step are a
    permutation of the pairs before it and no window or label is left
    unpaired; without labels, the windows alone are permuted. *)
Theorem shuffle_keeps_pairs (rng : nat -> list nat)
        (f f' : list window) (l l' : list String.string) :
  (forall n, Permutation (rng n) (seq 0 n)) ->
  shuffle_step rng true (f, l) = inr (f', l') ->
  (l <> [] ->
   (exists p, Permutation p (seq 0 (List.length f))
              /\ f' = take_indices f p /\ l' = take_indices l p)
   /\ Permutation (combine f' l') (combine f l)
   /\ List.length f' = List.length f
   /\ List.length l' = List.length l
   /\ List.length f = List.length l)
  /\ (l = [] -> Permutation f' f /\ l' = []).
Proof.
  intros Hrng H. unfold shuffle_step in H. split.
  - intro Hl.
    assert (E : negb (len l =? 0) = true).
    { destruct l; [contradiction | reflexivity]. }
    rewrite E in H. unfold shuffle2 in H.
    destruct (Nat.eqb (List.length f) (List.length l)) eqn:Efl;
      [| discriminate].
    apply Nat.eqb_eq in Efl. injection H as <- <-.
    pose proof (Hrng (List.length f)) as Hp.
    assert (Hf : Permutation (take_indices f (rng (List.length f))) f)
      by (apply take_indices_permutation; exact Hp).
    assert (Hlb : Permutation (take_indices l (rng (List.length f))) l)
      by (apply take_indices_permutation; rewrite <- Efl; exact Hp).
    split; [exists (rng (List.length f)); repeat split; exact Hp |].
    split.
    + rewrite <- take_indices_combine by exact Efl.
      apply take_indices_permutation.
      rewrite length_combine, <- Efl, Nat.min_id. exact Hp.
    + repeat split.
      * apply Permutation_length. exact Hf.
      * apply Permutation_length. exact Hlb.
      * exact Efl.
  - intros ->. cbn in H. injection H as <- <-.
    split; [| reflexivity].
    apply take_indices_permutation. apply Hrng.
Qed.

Lemma shuffle_keeps_pairs_witness :
  Permutation
    (combine (take_indices [[[1%float]]; [[2%float]]] (in_order 2))
             (take_indices ["a"; "b"]%string (in_order 2)))
    (combine [[[1%float]]; [[2%float]]] ["a"; "b"]%string).
Proof.
  refine (proj1 (proj2 (proj1
    (shuffle_keeps_pairs in_order [[[1%float]]; [[2%float]]] _
                         ["a"; "b"]%string _ _ _) _))).
  - intro n. apply Permutation_refl.
  - vm_compute. reflexivity.
  - discriminate.
Defined.

(** ** Shuffling arrays of different lengths *)

(** C9 (as stated, refuted).  With a label file that has no rows the
    label array is empty while there is one window; shuffling is asked
    for and [initialize] returns. *)
Lemma shuffle_with_no_labels_returns :
  exists ds,
    initialize in_order shuffled_without_labels = inr ds
    /\ labels ds = Some []
    /\ List.length (features ds) = 1%nat.
Proof.
  eexists. split; [vm_compute; reflexivity |].
  split; reflexivity.
Qed.

(** C9 (amended).  In the shuffle step of [initialize] (lines 119-123),
    with shuffling asked for: if the label array is not empty and its
    length differs from the number of windows, the step fails with the
    error of the shuffle for arrays of different lengths; if the label
    array is empty, the windows are shuffled alone and the step returns,
    the labels staying empty. *)
Theorem shuffle_step_length_mismatch (rng : nat -> list nat)
        (f : list window) (l : list String.string) :
  (l <> [] ->
   List.length l <> List.length f ->
   shuffle_step rng true (f, l) = inl ConfigurationError)
  /\ shuffle_step rng true (f, [])
     = inr (take_indices f (rng (List.length f)), []).
Proof.
  unfold shuffle_step. split.
  - intros Hl Hne.
    assert (E : negb (len l =? 0) = true).
    { destruct l; [contradiction | reflexivity]. }
    rewrite E. unfold shuffle2.
    replace (Nat.eqb (List.length f) (List.length l)) with false
      by (symmetry; apply Nat.eqb_neq; congruence).
    reflexivity.
  - reflexivity.
Qed.

Lemma shuffle_step_length_mismatch_witness :
  load_files shuffled_two_labels = inr shuffled_two_labels_loaded
  /\ do_shuffle shuffled_two_labels = true
  /\ shuffle_step in_order (do_shuffle shuffled_two_labels)
                  (ld_features shuffled_two_labels_loaded,
                   ld_labels shuffled_two_labels_loaded)
     = inl ConfigurationError.
Proof.
  split; [vm_compute; reflexivity | split; [reflexivity |]].
  apply (proj1 (shuffle_step_length_mismatch
                  in_order
                  (ld_features shuffled_two_labels_loaded)
                  (ld_labels shuffled_two_labels_loaded))).
  - discriminate.
  - vm_compute. discriminate.
Defined.

(** * Further properties of the alignment loops *)

(** ** Windows whose base row matches no offset *)

Lemma delta_loop_all_miss (feats : list row) (ftimes : list float)
      (sd : SamplingRate) (y_time x_time : float) (r0 : row) (i : Z)
      (deltas : list float) :
  getitem ftimes i = inr x_time ->
  getitem feats 0 = inr r0 ->
  Forall (fun d => within_tolerance y_time d x_time = false) deltas ->
  forall samples,
    for_each (delta_body feats ftimes sd y_time) (i, samples) deltas
    = inr (i, samples ++ repeat (repeat 0%float (List.length r0))
                                (List.length deltas)).
Proof.
  intros Hx Hr Hall. induction Hall as [| d deltas Hd _ IH]; intro samples;
    cbn [for_each].
  - simpl. rewrite app_nil_r. reflexivity.
  - rewrite (delta_body_miss feats ftimes sd y_time d i samples x_time r0
                             Hx Hd Hr).
    cbn [bind]. rewrite IH, <- app_assoc. reflexivity.
Qed.

(** X1.  The aligner does not look for a matching row: when the time of
    the row at the clamped base position is outside the tolerance of
    every target [y_time + delta], the window is [W] rows of zeros,
    whatever the other rows of the file hold. *)
Theorem base_row_mismatch_gives_zero_window
        (feats : list row) (ftimes : list float) (sd : SamplingRate)
        (x_index : Z) (y_time x_time : float) (r0 : row) :
  getitem ftimes (Z.max x_index 0) = inr x_time ->
  getitem feats 0 = inr r0 ->
  Forall (fun d => within_tolerance y_time d x_time = false) (intervals sd) ->
  build_window feats ftimes sd x_index y_time
  = inr (repeat (repeat 0%float (List.length r0)) (window_size sd)).
Proof.
  intros Hx Hr Hall. unfold build_window.
  rewrite (delta_loop_all_miss feats ftimes sd y_time x_time r0
                               (Z.max x_index 0) (intervals sd) Hx Hr Hall).
  reflexivity.
Qed.

Lemma base_row_mismatch_gives_zero_window_witness :
  build_window ex_features ex_times (ex_spec 0) 0 3%float
  = inr (repeat (repeat 0%float 1) 3).
Proof.
  apply (base_row_mismatch_gives_zero_window
           ex_features ex_times (ex_spec 0) 0 3%float 0%float [0%float]).
  - reflexivity.
  - reflexivity.
  - repeat constructor.
Defined.

(** ** Windows whose offsets all match *)

Lemma getitem_same_range {A B} (l : list A) (l' : list B) (i : Z) (a : A) :
  len l' = len l ->
  getitem l i = inr a ->
  exists b, getitem l' i = inr b.
Proof.
  intros Hlen H. apply getitem_inr_range in H. rewrite <- Hlen in H.
  destruct (Z_lt_le_dec i 0) as [Hneg | Hpos].
  - destruct (getitem_back l' i) as [b [Hb _]]; [lia |]. exists b. exact Hb.
  - destruct (getitem_front l' i) as [b [Hb _]]; [lia |]. exists b. exact Hb.
Qed.

Lemma delta_loop_all_match (feats : list row) (ftimes : list float)
      (sd : SamplingRate) (y_time : float) (deltas : list float) :
  len feats = len ftimes ->
  forall i samples,
    (forall k d, nth_error deltas k = Some d ->
                 exists x_time,
                   getitem ftimes (i + Z.of_nat k * window_skip sd)
                   = inr x_time
                   /\ within_tolerance y_time d x_time = true) ->
    exists rows,
      rows_by_skip feats i (window_skip sd) (List.length deltas) = inr rows
      /\ for_each (delta_body feats ftimes sd y_time) (i, samples) deltas
         = inr (i + len deltas * window_skip sd, samples ++ rows).
Proof.
  intro Hlen. induction deltas as [| d deltas IH]; intros i samples Hall.
  - exists []. split; [reflexivity |].
    cbn [for_each]. unfold len. simpl. rewrite app_nil_r, Z.add_0_r.
    reflexivity.
  - destruct (Hall 0%nat d eq_refl) as [x_time [Hx Hc]].
    rewrite Z.mul_0_l, Z.add_0_r in Hx.
    destruct (getitem_same_range ftimes feats i x_time Hlen Hx) as [r Hr].
    destruct (IH (i + window_skip sd) (samples ++ [r])) as [rows [Hrows Hloop]].
    { intros k d' Hk. destruct (Hall (S k) d' Hk) as [x' [Hx' Hc']].
      exists x'. split; [| exact Hc'].
      replace (i + window_skip sd + Z.of_nat k * window_skip sd)
        with (i + Z.of_nat (S k) * window_skip sd) by lia.
      exact Hx'. }
    exists (r :: rows). split.
    + cbn [rows_by_skip List.length]. rewrite Hr. cbn [bind].
      rewrite Hrows. reflexivity.
    + cbn [for_each].
      rewrite (delta_body_match feats ftimes sd y_time d i samples
                                x_time r Hx Hc Hr).
      cbn [bind]. rewrite Hloop, len_cons, <- app_assoc. simpl.
      f_equal. f_equal. ring.
Qed.

(** X2.  When the feature table has a row per feature time and, for
    every offset number [k], the time at position
    [max(x_index,0) + k*window_skip] is within the tolerance of
    [y_time + delta_k], the window is made of the rows at exactly those
    positions, in the order of the offsets. *)
Theorem matching_window_reads_rows_by_skip
        (feats : list row) (ftimes : list float) (sd : SamplingRate)
        (x_index : Z) (y_time : float) :
  len feats = len ftimes ->
  (forall k d, nth_error (intervals sd) k = Some d ->
               exists x_time,
                 getitem ftimes (Z.max x_index 0
                                 + Z.of_nat k * window_skip sd) = inr x_time
                 /\ within_tolerance y_time d x_time = true) ->
  exists rows,
    build_window feats ftimes sd x_index y_time = inr rows
    /\ rows_by_skip feats (Z.max x_index 0) (window_skip sd) (window_size sd)
       = inr rows.
Proof.
  intros Hlen Hall.
  destruct (delta_loop_all_match feats ftimes sd y_time (intervals sd) Hlen
                                 (Z.max x_index 0) [] Hall)
    as [rows [Hrows Hloop]].
  exists rows. split; [| exact Hrows].
  unfold build_window. rewrite Hloop. reflexivity.
Qed.

Lemma matching_window_reads_rows_by_skip_witness :
  exists rows,
    build_window ex_features ex_times (ex_spec 1) 1 3%float = inr rows
    /\ rows_by_skip ex_features 1 1 3 = inr rows.
Proof.
  apply (matching_window_reads_rows_by_skip
           ex_features ex_times (ex_spec 1) 1 3%float).
  - reflexivity.
  - intros k d Hk.
    destruct k as [| [| [| k]]]; simpl in Hk;
      try (injection Hk as <-; eexists; split; vm_compute; reflexivity).
    destruct k; discriminate.
Defined.

(** ** Search positions below zero *)

(** X3.  A search position in [-len .. -1] (reached when [window_skip]
    is negative) is neither an error nor a miss: the time and the row
    are read counting from the end of the file, and on a match that row
    is appended and the position moves by [window_skip]. *)
Theorem negative_position_reads_from_end
        (feats : list row) (ftimes : list float) (sd : SamplingRate)
        (y_time delta x_time : float) (r : row) (i : Z) (samples : window) :
  len feats = len ftimes ->
  - len ftimes <= i < 0 ->
  nth_error ftimes (Z.to_nat (i + len ftimes)) = Some x_time ->
  nth_error feats (Z.to_nat (i + len ftimes)) = Some r ->
  within_tolerance y_time delta x_time = true ->
  delta_body feats ftimes sd y_time (i, samples) delta
  = inr (i + window_skip sd, samples ++ [r]).
Proof.
  intros Hlen Hi Hx Hr Hc.
  destruct (getitem_back ftimes i Hi) as [x' [Hgx Hnx]].
  destruct (getitem_back feats i) as [r' [Hgr Hnr]]; [lia |].
  rewrite Hlen in Hnr.
  assert (x' = x_time) by congruence. assert (r' = r) by congruence.
  subst x' r'.
  exact (delta_body_match feats ftimes sd y_time delta i samples
                          x_time r Hgx Hc Hgr).
Qed.

Lemma negative_position_reads_from_end_witness :
  delta_body ex_features ex_times backward_spec 3%float
             (-1, [[0%float]]) 2%float
  = inr (-1 + window_skip backward_spec, [[0%float]] ++ [[5%float]])
  /\ build_window ex_features ex_times backward_spec 0 3%float
     = inr [[0%float]; [5%float]].
Proof.
  split.
  - apply (negative_position_reads_from_end
             ex_features ex_times backward_spec 3%float 2%float 5%float
             [5%float] (-1) [[0%float]]).
    + reflexivity.
    + vm_compute. split; [discriminate | reflexivity].
    + reflexivity.
    + reflexivity.
    + vm_compute. reflexivity.
  - vm_compute. reflexivity.
Defined.

(** ** Where the rows of a window come from *)

Lemma delta_body_row_origin (feats : list row) (ftimes : list float)
      (sd : SamplingRate) (y_time delta : float) (i i' : Z)
      (samples samples' : window) :
  delta_body feats ftimes sd y_time (i, samples) delta = inr (i', samples') ->
  exists r,
    samples' = samples ++ [r]
    /\ ((In r feats /\ i' = i + window_skip sd)
        \/ (r = repeat 0%float (List.length (hd [] feats)) /\ i' = i)).
Proof.
  unfold delta_body. intro H.
  apply bind_inr in H. destruct H as [x_time [_ H]].
  destruct ((i <? len ftimes) && within_tolerance y_time delta x_time).
  - apply bind_inr in H. destruct H as [r [Hr H]].
    injection H as <- <-. exists r. split; [reflexivity |].
    left. split; [eapply getitem_In; exact Hr | reflexivity].
  - apply bind_inr in H. destruct H as [z [Hz H]].
    injection H as <- <-. exists z. split; [reflexivity |].
    right. split; [| reflexivity].
    unfold zero_row in Hz.
    apply bind_inr in Hz. destruct Hz as [r0 [Hr0 Hz]].
    injection Hz as <-.
    apply getitem_0_inr in Hr0. destruct Hr0 as [rest ->]. reflexivity.
Qed.

Lemma delta_loop_row_origin (feats : list row) (ftimes : list float)
      (sd : SamplingRate) (y_time : float) (deltas : list float) :
  forall i i' samples samples',
    for_each (delta_body feats ftimes sd y_time) (i, samples) deltas
    = inr (i', samples') ->
    exists rows,
      samples' = samples ++ rows
      /\ Forall (fun r => In r feats
                          \/ r = repeat 0%float (List.length (hd [] feats)))
                rows.
Proof.
  induction deltas as [| d deltas IH]; intros i i' samples samples' H;
    cbn [for_each] in H.
  - injection H as _ <-. exists []. split; [| constructor].
    rewrite app_nil_r. reflexivity.
  - apply bind_inr in H. destruct H as [[i1 s1] [H1 H]].
    apply delta_body_row_origin in H1. destruct H1 as [r [-> Hr]].
    apply IH in H. destruct H as [rows [-> Hrows]].
    exists (r :: rows). split; [rewrite <- app_assoc; reflexivity |].
    constructor; [| exact Hrows].
    destruct Hr as [[Hin _] | [Hz _]]; [left; exact Hin | right; exact Hz].
Qed.

(** X4.  Alignment never makes up data: every row of every window it
    returns is a row of the feature table or the row of zeros as wide as
    the table's first row. *)
Theorem window_rows_come_from_table
        (feats : list row) (ftimes : list float) (sd : SamplingRate)
        (label_times : list float) (ws : list window) :
  align feats ftimes sd label_times = inr ws ->
  Forall (Forall (fun r => In r feats
                           \/ r = repeat 0%float
                                         (List.length (hd [] feats)))) ws.
Proof.
  rewrite align_is_align_by_base. unfold align_by_base.
  generalize (enumerate label_times). intro yts. revert ws.
  induction yts as [| yt yts IH]; intros ws H; cbn [map_result] in H.
  - injection H as <-. constructor.
  - apply bind_inr in H. destruct H as [w [Hw H]].
    apply bind_inr in H. destruct H as [ws' [Hws H]].
    injection H as <-. constructor; [| apply IH; exact Hws].
    unfold window_of_label, build_window in Hw.
    apply bind_inr in Hw. destruct Hw as [[i' s'] [Hloop Hw]].
    injection Hw as <-.
    apply delta_loop_row_origin in Hloop.
    destruct Hloop as [rows [-> Hrows]]. exact Hrows.
Qed.

Lemma window_rows_come_from_table_witness :
  Forall (Forall (fun r => In r ex_features
                           \/ r = repeat 0%float
                                         (List.length (hd [] ex_features))))
         [[[1%float]; [2%float]; [3%float]]].
Proof.
  apply (window_rows_come_from_table ex_features ex_times (ex_spec 1)
                                     [3%float]).
  vm_compute. reflexivity.
Defined.

(** * Further properties of the file loop *)

Lemma map_result_length {A B} (f : A -> result B) (l : list A) :
  forall bs, map_result f l = inr bs -> List.length bs = List.length l.
Proof.
  induction l as [| a l IH]; intros bs H; cbn [map_result] in H.
  - injection H as <-. reflexivity.
  - apply bind_inr in H. destruct H as [b [_ H]].
    apply bind_inr in H. destruct H as [bs' [Hbs H]].
    injection H as <-. simpl. rewrite (IH bs' Hbs). reflexivity.
Qed.

Lemma align_by_base_length (feats : list row) (ftimes : list float)
      (sd : SamplingRate) (label_times : list float) (ws : list window) :
  align_by_base feats ftimes sd label_times = inr ws ->
  List.length ws = List.length label_times.
Proof.
  unfold align_by_base. intro H. apply map_result_length in H.
  unfold enumerate in H. rewrite enumerate_from_length in H. exact H.
Qed.

(** Everything one successful pass of the file loop establishes. *)
Lemma file_body_parts (ds : DataStreamer) (st0 st1 : Loading)
      (i : nat) (f : list row) :
  file_body ds st0 (i, f) = inr st1 ->
  exists r0 lbls ft lt ws,
    getitem f 0 = inr r0
    /\ (if truthy (y_files ds)
        then exists ys,
            getitem (files_of (y_files ds)) (Z.of_nat i) = inr ys
            /\ lbls = ld_labels st0 ++ ys
        else lbls = ld_labels st0)
    /\ (if truthy (x_time_files ds)
        then getitem (files_of (x_time_files ds)) (Z.of_nat i) = inr ft
        else ft = ld_feature_times st0)
    /\ (if truthy (y_time_files ds)
        then getitem (files_of (y_time_files ds)) (Z.of_nat i) = inr lt
        else lt = ld_label_times st0)
    /\ align_by_base f ft (sample_deltas ds) lt = inr ws
    /\ st1 = mkLoading (ld_features st0 ++ ws) lbls
                       (Some (List.length r0))
                       (if truthy (y_time_files ds)
                        then ld_n_samples st0 + len lt
                        else ld_n_samples st0)
                       ft lt.
Proof.
  unfold file_body. intro H.
  apply bind_inr in H. destruct H as [r0 [Hr0 H]].
  apply bind_inr in H. destruct H as [lbls [Hlbls H]].
  apply bind_inr in H. destruct H as [ft [Hft H]].
  apply bind_inr in H. destruct H as [lt [Hlt H]].
  apply bind_inr in H. destruct H as [acc [Hacc H]].
  injection H as <-.
  rewrite align_onto_by_base in Hacc.
  apply bind_inr in Hacc. destruct Hacc as [ws [Hws Hacc]].
  injection Hacc as <-.
  exists r0, lbls, ft, lt, ws.
  split; [exact Hr0 |].
  split.
  { destruct (truthy (y_files ds)).
    - apply bind_inr in Hlbls. destruct Hlbls as [ys [Hys Hl]].
      injection Hl as <-. exists ys. split; [exact Hys | reflexivity].
    - injection Hlbls as <-. reflexivity. }
  split.
  { destruct (truthy (x_time_files ds)); [exact Hft |].
    injection Hft as <-. reflexivity. }
  split.
  { destruct (truthy (y_time_files ds)); [exact Hlt |].
    injection Hlt as <-. reflexivity. }
  split; [exact Hws | reflexivity].
Qed.

(** ** Streamers without label-time files *)

Lemma file_loop_no_label_times (ds : DataStreamer)
      (fs : list (nat * list row)) :
  truthy (y_time_files ds) = false ->
  forall st0 st,
    ld_label_times st0 = [] ->
    for_each (file_body ds) st0 fs = inr st ->
    ld_features st = ld_features st0
    /\ ld_n_samples st = ld_n_samples st0.
Proof.
  intro Hyt. induction fs as [| [i f] fs IH]; intros st0 st H0 H;
    cbn [for_each] in H.
  - injection H as <-. split; reflexivity.
  - apply bind_inr in H. destruct H as [st1 [H1 H]].
    apply file_body_parts in H1.
    destruct H1 as [r0 [lbls [ft [lt [ws [_ [_ [_ [Hlt [Hws ->]]]]]]]]]].
    rewrite Hyt in *. subst lt. rewrite H0 in Hws.
    apply align_by_base_length in Hws.
    destruct ws; [| discriminate].
    apply IH in H; [| exact H0].
    cbn [ld_features ld_n_samples] in H. rewrite app_nil_r in H. exact H.
Qed.

Lemma take_indices_nil {A} (p : list nat) : take_indices (@nil A) p = [].
Proof.
  induction p as [| i p IH]; simpl; [reflexivity |].
  destruct i; exact IH.
Qed.

(** X5.  Windows are built from the label-time files only.  When none
    are given (and no balancer replaces the arrays), [initialize]
    returns a streamer with no window at all and an unchanged
    [n_samples], however many feature rows and labels were read. *)
Theorem no_label_times_no_windows (rng : nat -> list nat)
        (ds0 ds : DataStreamer) :
  truthy (y_time_files ds0) = false ->
  class_balancer ds0 = None ->
  initialize rng ds0 = inr ds ->
  features ds = [] /\ n_samples ds = n_samples ds0.
Proof.
  intros Hyt Hb H. apply initialize_inr in H.
  destruct H as [st [f [l [Hst [Hsh ->]]]]].
  unfold load_files in Hst.
  apply (file_loop_no_label_times ds0 _ Hyt) in Hst; [| reflexivity].
  destruct Hst as [Hf Hn]. cbn [ld_features ld_n_samples] in Hf, Hn.
  rewrite Hf in Hsh. rewrite Hb. cbn [balance_step features n_samples].
  split; [| exact Hn].
  unfold shuffle_step in Hsh. destruct (do_shuffle ds0).
  - destruct (negb (len (ld_labels st) =? 0)).
    + unfold shuffle2 in Hsh.
      destruct (Nat.eqb (List.length (@nil window))
                        (List.length (ld_labels st))); [| discriminate].
      injection Hsh as <- _. apply take_indices_nil.
    + cbn in Hsh. injection Hsh as <- _. apply take_indices_nil.
  - injection Hsh as <- _. reflexivity.
Qed.

Lemma no_label_times_no_windows_witness :
  features (initialized (streamer_of [narrow_file; wide_file])) = []
  /\ n_samples (initialized (streamer_of [narrow_file; wide_file])) = 0.
Proof.
  apply (no_label_times_no_windows
           in_order (streamer_of [narrow_file; wide_file])).
  - reflexivity.
  - reflexivity.
  - vm_compute. reflexivity.
Defined.

(** ** [n_samples] and the number of windows *)

Lemma file_loop_counts (ds : DataStreamer) (fs : list (nat * list row)) :
  forall st0 st,
    times_carried (y_time_files ds) (ld_label_times st0) ->
    for_each (file_body ds) st0 fs = inr st ->
    ld_n_samples st - ld_n_samples st0
    = len (ld_features st) - len (ld_features st0).
Proof.
  induction fs as [| [i f] fs IH]; intros st0 st Hc H; cbn [for_each] in H.
  - injection H as <-. lia.
  - apply bind_inr in H. destruct H as [st1 [H1 H]].
    apply file_body_parts in H1.
    destruct H1 as [r0 [lbls [ft [lt [ws [_ [_ [_ [Hlt [Hws ->]]]]]]]]]].
    apply align_by_base_length in Hws.
    apply IH in H.
    + cbn [ld_features ld_n_samples] in H.
      unfold len in *. rewrite length_app, Hws in H.
      destruct (truthy (y_time_files ds)) eqn:E.
      * lia.
      * subst lt. rewrite (Hc E) in H. simpl in H. lia.
    + cbn [ld_label_times]. intro E. rewrite E in Hlt. subst lt.
      apply Hc. exact E.
Qed.

(** X6.  [initialize] adds to [n_samples] exactly the number of windows
    it builds; without shuffling and balancing those windows are the
    [features] array. *)
Theorem n_samples_counts_windows (rng : nat -> list nat)
        (ds0 ds : DataStreamer) :
  initialize rng ds0 = inr ds ->
  exists st,
    load_files ds0 = inr st
    /\ n_samples ds = n_samples ds0 + len (ld_features st)
    /\ (do_shuffle ds0 = false -> class_balancer ds0 = None ->
        features ds = ld_features st).
Proof.
  intro H. apply initialize_inr in H.
  destruct H as [st [f [l [Hst [Hsh ->]]]]].
  exists st. split; [exact Hst |].
  pose proof Hst as Hc. unfold load_files in Hc.
  apply file_loop_counts in Hc; [| intro; reflexivity].
  cbn [ld_features ld_n_samples] in Hc. unfold len in Hc at 2.
  simpl in Hc.
  destruct (balance_step (class_balancer ds0) (f, l)) as [f' l'] eqn:Eb.
  cbn [n_samples features]. split; [lia |].
  intros Hno Hnb. rewrite Hno in Hsh. rewrite Hnb in Eb.
  cbn in Hsh, Eb. unfold ret in Hsh. congruence.
Qed.

Lemma n_samples_counts_windows_witness :
  exists st,
    load_files five_samples = inr st
    /\ n_samples five_samples_ready
       = n_samples five_samples + len (ld_features st)
    /\ (do_shuffle five_samples = false ->
        class_balancer five_samples = None ->
        features five_samples_ready = ld_features st).
Proof.
  apply (n_samples_counts_windows in_order five_samples five_samples_ready).
  vm_compute. reflexivity.
Defined.

(** * The exceptions of the file loop *)







(** ** Files that cannot be indexed *)


Lemma getitem_of_nat {A} (l : list A) (i : nat) (a : A) :
  getitem l (Z.of_nat i) = inr a -> nth_error l i = Some a.
Proof.
  intro H. pose proof (getitem_inr_range l _ a H) as Hr.
  destruct (getitem_front l (Z.of_nat i)) as [a' [Ha' Hn]]; [lia |].
  rewrite Nat2Z.id in Hn. congruence.
Qed.







(** * Labels and windows side by side *)

Lemma skipn_nth_error {A} (l : list A) :
  forall i a, nth_error l i = Some a -> skipn i l = a :: skipn (S i) l.
Proof.
  induction l as [| b l IH]; intros i a H.
  - destruct i; discriminate.
  - destruct i as [| i]; simpl in H.
    + injection H as <-. reflexivity.
    + simpl. apply IH. exact H.
Qed.

Lemma file_loop_labels (ds : DataStreamer) (fs : list (list row)) :
  truthy (y_files ds) = true ->
  forall i st0 st,
    for_each (file_body ds) st0 (enumerate_from i fs) = inr st ->
    ld_labels st
    = ld_labels st0
      ++ List.concat (firstn (List.length fs)
                             (skipn i (files_of (y_files ds)))).
Proof.
  intro Hy. induction fs as [| f fs IH]; intros i st0 st H;
    cbn [enumerate_from for_each] in H.
  - injection H as <-. simpl. rewrite app_nil_r. reflexivity.
  - apply bind_inr in H. destruct H as [st1 [H1 H]].
    apply file_body_parts in H1.
    destruct H1 as [r0 [lbls [ft [lt [ws [_ [Hl [_ [_ [_ ->]]]]]]]]]].
    rewrite Hy in Hl. destruct Hl as [ys [Hys ->]].
    apply getitem_of_nat in Hys.
    rewrite (IH _ _ _ H). cbn [ld_labels List.length].
    rewrite (skipn_nth_error _ _ _ Hys). cbn [firstn List.concat].
    rewrite <- app_assoc. reflexivity.
Qed.

(** X10.  Without shuffling and balancing, the labels of an initialized
    streamer are the rows of the label files joined in file order; only
    as many label files as there are feature files are read. *)
Theorem labels_are_label_files_in_order (rng : nat -> list nat)
        (ds0 ds : DataStreamer) :
  truthy (y_files ds0) = true ->
  do_shuffle ds0 = false ->
  class_balancer ds0 = None ->
  initialize rng ds0 = inr ds ->
  labels ds
  = Some (List.concat (firstn (List.length (x_files ds0))
                              (files_of (y_files ds0)))).
Proof.
  intros Hy Hno Hnb H. apply initialize_inr in H.
  destruct H as [st [f [l [Hst [Hsh ->]]]]].
  rewrite Hno in Hsh. rewrite Hnb. cbn in Hsh. unfold ret in Hsh.
  injection Hsh as _ <-. cbn [balance_step labels].
  unfold load_files, enumerate in Hst.
  rewrite (file_loop_labels ds0 _ Hy _ _ _ Hst). reflexivity.
Qed.

Lemma labels_are_label_files_in_order_witness :
  labels five_samples_ready
  = Some (List.concat (firstn (List.length (x_files five_samples))
                              (files_of (y_files five_samples)))).
Proof.
  apply (labels_are_label_files_in_order in_order five_samples
                                         five_samples_ready).
  - reflexivity.
  - reflexivity.
  - reflexivity.
  - vm_compute. reflexivity.
Defined.

Lemma file_loop_parallel (ds : DataStreamer) (fs : list (nat * list row)) :
  truthy (y_files ds) = true ->
  truthy (y_time_files ds) = true ->
  (forall j ys ts,
      nth_error (files_of (y_files ds)) j = Some ys ->
      nth_error (files_of (y_time_files ds)) j = Some ts ->
      List.length ys = List.length ts) ->
  forall st0 st,
    for_each (file_body ds) st0 fs = inr st ->
    (List.length (ld_labels st) + List.length (ld_features st0)
     = List.length (ld_features st) + List.length (ld_labels st0))%nat.
Proof.
  intros Hy Hyt Hsame. induction fs as [| [i f] fs IH]; intros st0 st H;
    cbn [for_each] in H.
  - injection H as <-. lia.
  - apply bind_inr in H. destruct H as [st1 [H1 H]].
    apply file_body_parts in H1.
    destruct H1 as [r0 [lbls [ft [lt [ws [_ [Hl [_ [Hlt [Hws ->]]]]]]]]]].
    rewrite Hy in Hl. rewrite Hyt in Hlt. destruct Hl as [ys [Hys ->]].
    apply getitem_of_nat in Hys. apply getitem_of_nat in Hlt.
    apply align_by_base_length in Hws.
    pose proof (Hsame i ys lt Hys Hlt) as Hlen.
    apply IH in H. cbn [ld_labels ld_features] in H.
    rewrite !length_app in H. lia.
Qed.

(** X11.  When every label file has as many rows as the label-time file
    of its group and the files load, the loaded labels and windows have
    the same length, so the shuffle step does not fail on them, whether
    shuffling is asked for or not. *)
Theorem consistent_groups_shuffle (rng : nat -> list nat)
        (ds : DataStreamer) (st : Loading) :
  truthy (y_files ds) = true ->
  truthy (y_time_files ds) = true ->
  (forall j ys ts,
      nth_error (files_of (y_files ds)) j = Some ys ->
      nth_error (files_of (y_time_files ds)) j = Some ts ->
      List.length ys = List.length ts) ->
  load_files ds = inr st ->
  List.length (ld_labels st) = List.length (ld_features st)
  /\ exists fl,
      shuffle_step rng (do_shuffle ds) (ld_features st, ld_labels st)
      = inr fl.
Proof.
  intros Hy Hyt Hsame Hst.
  assert (Hlen : List.length (ld_labels st) = List.length (ld_features st)).
  { unfold load_files in Hst.
    pose proof (file_loop_parallel ds _ Hy Hyt Hsame _ _ Hst) as H.
    cbn [ld_labels ld_features List.length] in H. lia. }
  split; [exact Hlen |].
  unfold shuffle_step. destruct (do_shuffle ds); [| eexists; reflexivity].
  destruct (negb (len (ld_labels st) =? 0)).
  - unfold shuffle2. rewrite <- Hlen, Nat.eqb_refl. eexists. reflexivity.
  - eexists. reflexivity.
Qed.

Lemma consistent_groups_shuffle_witness :
  load_files five_samples = inr five_samples_loaded
  /\ List.length (ld_labels five_samples_loaded)
     = List.length (ld_features five_samples_loaded)
  /\ exists fl,
      shuffle_step in_order (do_shuffle five_samples)
                   (ld_features five_samples_loaded,
                    ld_labels five_samples_loaded) = inr fl.
Proof.
  assert (H : load_files five_samples = inr five_samples_loaded)
    by (vm_compute; reflexivity).
  split; [exact H |].
  apply (consistent_groups_shuffle in_order five_samples
                                   five_samples_loaded).
  - reflexivity.
  - reflexivity.
  - intros [| j] ys ts Hys Hts; simpl in Hys, Hts.
    + injection Hys as <-. injection Hts as <-. reflexivity.
    + destruct j; discriminate.
  - exact H.
Defined.

(** * Running [initialize] again *)

Lemma map_result_ext {A B} (f g : A -> result B) (l : list A) :
  (forall a, f a = g a) -> map_result f l = map_result g l.
Proof.
  intro H. induction l as [| a l IH]; cbn [map_result].
  - reflexivity.
  - rewrite H, IH. reflexivity.
Qed.

Lemma initialize_keeps_files (rng : nat -> list nat) (ds0 ds : DataStreamer) :
  initialize rng ds0 = inr ds ->
  x_files ds = x_files ds0
  /\ x_time_files ds = x_time_files ds0
  /\ y_time_files ds = y_time_files ds0
  /\ sample_deltas ds = sample_deltas ds0.
Proof.
  intro H. apply initialize_inr in H.
  destruct H as [st [f [l [_ [_ ->]]]]].
  destruct (balance_step (class_balancer ds0) (f, l)).
  repeat split; reflexivity.
Qed.

Lemma loaded_windows_by_group (ds : DataStreamer) (st : Loading) :
  load_files ds = inr st ->
  exists wss,
    map_result (align_group_by_base ds) (enumerate (x_files ds)) = inr wss
    /\ ld_features st = List.concat wss.
Proof.
  intro H. unfold load_files in H.
  apply file_loop_concat in H; [exact H | |]; intro; reflexivity.
Qed.

Lemma initialize_adds_windows (rng : nat -> list nat)
      (ds0 ds : DataStreamer) :
  initialize rng ds0 = inr ds ->
  exists st wss,
    load_files ds0 = inr st
    /\ map_result (align_group_by_base ds0) (enumerate (x_files ds0))
       = inr wss
    /\ ld_features st = List.concat wss
    /\ n_samples ds = n_samples ds0 + len (ld_features st).
Proof.
  intro H. apply initialize_inr in H.
  destruct H as [st [f [l [Hst [_ ->]]]]].
  destruct (loaded_windows_by_group ds0 st Hst) as [wss [Hw Hf]].
  exists st, wss. split; [exact Hst | split; [exact Hw | split; [exact Hf |]]].
  pose proof Hst as Hc. unfold load_files in Hc.
  apply file_loop_counts in Hc; [| intro; reflexivity].
  cbn [ld_features ld_n_samples] in Hc.
  destruct (balance_step (class_balancer ds0) (f, l)).
  cbn [n_samples]. unfold len in Hc at 2. simpl in Hc. lia.
Qed.

(** X12.  [initialize] never resets [n_samples].  Run again on the
    streamer it returned, the file loop builds the same windows once
    more and their number is added a second time: after the second run
    [n_samples] is its value before the first run plus twice the number
    of windows that one run builds. *)
Theorem initialize_again_adds_again (rng1 rng2 : nat -> list nat)
        (ds0 ds1 ds2 : DataStreamer) :
  initialize rng1 ds0 = inr ds1 ->
  initialize rng2 ds1 = inr ds2 ->
  exists st1 st2,
    load_files ds0 = inr st1
    /\ load_files ds1 = inr st2
    /\ ld_features st2 = ld_features st1
    /\ n_samples ds1 = n_samples ds0 + len (ld_features st1)
    /\ n_samples ds2 = n_samples ds0 + 2 * len (ld_features st1).
Proof.
  intros H1 H2.
  destruct (initialize_keeps_files rng1 ds0 ds1 H1) as [Hx [Hxt [Hyt Hsd]]].
  destruct (initialize_adds_windows rng1 ds0 ds1 H1)
    as [st1 [w1 [Hst1 [Hw1 [Hf1 Hn1]]]]].
  destruct (initialize_adds_windows rng2 ds1 ds2 H2)
    as [st2 [w2 [Hst2 [Hw2 [Hf2 Hn2]]]]].
  rewrite Hx in Hw2.
  rewrite (map_result_ext (align_group_by_base ds1)
                          (align_group_by_base ds0)) in Hw2.
  - assert (w2 = w1) by congruence. subst w2.
    assert (Hsame : ld_features st2 = ld_features st1) by congruence.
    exists st1, st2.
    split; [exact Hst1 | split; [exact Hst2 | split; [exact Hsame |]]].
    rewrite Hsame in Hn2. split; lia.
  - intro a. unfold align_group_by_base. rewrite Hxt, Hyt, Hsd. reflexivity.
Qed.

Lemma initialize_again_adds_again_witness :
  initialize in_order five_samples = inr five_samples_ready
  /\ n_samples five_samples_ready = 5
  /\ n_samples (initialized five_samples_ready) = 10
  /\ List.length (features (initialized five_samples_ready)) = 5%nat.
Proof.
  assert (H1 : initialize in_order five_samples = inr five_samples_ready)
    by (vm_compute; reflexivity).
  assert (H2 : initialize in_order five_samples_ready
               = inr (initialized five_samples_ready))
    by (vm_compute; reflexivity).
  destruct (initialize_again_adds_again in_order in_order five_samples
                                        five_samples_ready
                                        (initialized five_samples_ready)
                                        H1 H2)
    as [st1 [st2 [Hst1 [_ [_ [Hn1 Hn2]]]]]].
  assert (Hl : len (ld_features st1) = 5).
  { assert (E : @inr exn Loading st1 = inr five_samples_loaded).
    { rewrite <- Hst1. vm_compute. reflexivity. }
    injection E as ->. reflexivity. }
  rewrite Hl in Hn1, Hn2.
  split; [exact H1 | split; [exact Hn1 | split; [exact Hn2 |]]].
  vm_compute. reflexivity.
Defined.

(** * One pass over the batches *)

Lemma firstn_add {A} (a b : nat) :
  forall l : list A, firstn (a + b) l = firstn a l ++ firstn b (skipn a l).
Proof.
  induction a as [| a IH]; intro l; simpl.
  - reflexivity.
  - destruct l as [| x l]; simpl.
    + rewrite firstn_nil. reflexivity.
    + rewrite IH. reflexivity.
Qed.

Lemma slice_forward {A} (l : list A) (a b : Z) :
  0 <= a -> 0 <= b ->
  slice l a (a + b) = firstn (Z.to_nat b) (skipn (Z.to_nat a) l).
Proof.
  intros Ha Hb. unfold slice, slice_bound.
  replace (a <? 0) with false by (symmetry; apply Z.ltb_ge; lia).
  replace (a + b <? 0) with false by (symmetry; apply Z.ltb_ge; lia).
  pose proof (len_nonneg l) as Hl.
  destruct (Z_lt_le_dec a (len l)) as [Hin | Hout].
  - replace (Z.max 0 (Z.min a (len l))) with a by lia.
    destruct (Z_le_gt_dec (a + b) (len l)) as [Hfit | Hcut].
    + replace (Z.max 0 (Z.min (a + b) (len l)) - a) with b by lia.
      reflexivity.
    + replace (Z.max 0 (Z.min (a + b) (len l)) - a) with (len l - a) by lia.
      assert (Hs : List.length (skipn (Z.to_nat a) l) = Z.to_nat (len l - a)).
      { rewrite length_skipn. unfold len. lia. }
      rewrite <- Hs, firstn_all. symmetry. apply firstn_all2. lia.
  - replace (Z.max 0 (Z.min a (len l))) with (len l) by lia.
    replace (Z.max 0 (Z.min (a + b) (len l)) - len l) with 0 by lia.
    rewrite (skipn_all2 l (n := Z.to_nat a)) by (unfold len in Hout; lia).
    rewrite firstn_nil. reflexivity.
Qed.

Lemma chunks_cover {A} (l : list A) (b n : nat) :
  List.concat (map (fun k => firstn b (skipn (k * b) l)) (seq 0 n))
  = firstn (n * b) l.
Proof.
  induction n as [| n IH].
  - reflexivity.
  - rewrite seq_S, map_app, concat_app, IH. simpl.
    rewrite app_nil_r, (Nat.add_comm b (n * b)). symmetry. apply firstn_add.
Qed.

Lemma feature_batch_chunk (ds : DataStreamer) (k : nat) :
  index ds = 0 -> 0 <= batch_size ds ->
  feature_batch ds k
  = firstn (Z.to_nat (batch_size ds))
           (skipn (k * Z.to_nat (batch_size ds)) (features ds)).
Proof.
  intros Hi Hb. unfold feature_batch, next. cbn [fst].
  destruct (after_calls_fields k ds) as [Hf [_ [Hbs Hx]]].
  rewrite Hf, Hbs, Hx, Hi, Z.add_0_l.
  rewrite slice_forward by (try apply Z.mul_nonneg_nonneg; lia).
  rewrite Z2Nat.inj_mul, Nat2Z.id by lia. reflexivity.
Qed.

(** X13.  With a positive [batch_size], the batches returned by the
    first [n] calls of [next] after [initialize], joined in order, are
    the whole [features] array as soon as [n * batch_size] reaches its
    length: every sample is returned once, in order, and each later
    call returns an empty batch (the cursor does not wrap around). *)
Theorem batches_cover_features (rng : nat -> list nat)
        (ds0 ds : DataStreamer) (n : nat) :
  initialize rng ds0 = inr ds ->
  0 < batch_size ds ->
  len (features ds) <= Z.of_nat n * batch_size ds ->
  List.concat (map (feature_batch ds) (seq 0 n)) = features ds
  /\ forall k, (n <= k)%nat -> feature_batch ds k = [].
Proof.
  intros H Hb Hn. destruct (initialize_fields rng ds0 ds H) as [Hi _].
  assert (Hnat : (List.length (features ds)
                  <= n * Z.to_nat (batch_size ds))%nat).
  { unfold len in Hn. apply Nat2Z.inj_le.
    rewrite Nat2Z.inj_mul, Z2Nat.id by lia. exact Hn. }
  split.
  - rewrite (map_ext (feature_batch ds)
                     (fun k => firstn (Z.to_nat (batch_size ds))
                                      (skipn (k * Z.to_nat (batch_size ds))
                                             (features ds)))).
    + rewrite chunks_cover. apply firstn_all2. exact Hnat.
    + intro k. apply feature_batch_chunk; [exact Hi | lia].
  - intros k Hk. rewrite feature_batch_chunk by (try exact Hi; lia).
    rewrite skipn_all2; [apply firstn_nil |].
    apply Nat.le_trans with (n * Z.to_nat (batch_size ds))%nat;
      [exact Hnat |].
    apply Nat.mul_le_mono_r. exact Hk.
Qed.

Lemma batches_cover_features_witness :
  List.concat (map (feature_batch five_samples_ready) (seq 0 3))
  = features five_samples_ready
  /\ forall k, (3 <= k)%nat -> feature_batch five_samples_ready k = [].
Proof.
  apply (batches_cover_features in_order five_samples five_samples_ready 3).
  - vm_compute. reflexivity.
  - reflexivity.
  - vm_compute. discriminate.
Defined.

(** X14.  With [batch_size = 0] the cursor never moves and every call
    of [next] returns an empty batch. *)
Theorem zero_batch_size_stalls (ds : DataStreamer) (k : nat) :
  batch_size ds = 0 ->
  index (after_calls k ds) = index ds
  /\ feature_batch ds k = [].
Proof.
  intro Hb. destruct (after_calls_fields k ds) as [Hf [_ [Hbs Hx]]].
  rewrite Hb, Z.mul_0_r, Z.add_0_r in Hx. split; [exact Hx |].
  unfold feature_batch, next. cbn [fst].
  rewrite Hf, Hbs, Hx, Hb, Z.add_0_r. unfold slice.
  rewrite Z.sub_diag. reflexivity.
Qed.

Lemma zero_batch_size_stalls_witness :
  index (after_calls 4 one_window_no_batch) = index one_window_no_batch
  /\ feature_batch one_window_no_batch 4 = [].
Proof.
  apply (zero_batch_size_stalls one_window_no_batch 4). reflexivity.
Defined.

(** * Reading and naming files *)

Lemma read_singles_loop {A} (rows : list (list A)) :
  forall lines : list (A + list A),
    (In [] rows ->
     for_each (fun lines line =>
                 x <- getitem line 0 ;; ret (lines ++ [inl x]))
              lines rows = inl IndexError)
    /\ (~ In [] rows ->
        for_each (fun lines line =>
                    x <- getitem line 0 ;; ret (lines ++ [inl x]))
                 lines rows
        = inr (lines ++ map inl (first_fields rows))).
Proof.
  induction rows as [| line rows IH]; intro lines.
  - split; [contradiction |]. intros _. simpl. rewrite app_nil_r.
    reflexivity.
  - destruct line as [| x line]; cbn [for_each].
    + split; [reflexivity |]. intro H. exfalso. apply H. left. reflexivity.
    + change (getitem (x :: line) 0) with (@inr exn A x). cbn [bind ret].
      destruct (IH (lines ++ [inl x])) as [IHe IHs]. split.
      * intros [H | H]; [discriminate | apply IHe; exact H].
      * intro H. rewrite IHs by (intro Hin; apply H; right; exact Hin).
        rewrite <- app_assoc. reflexivity.
Qed.

Lemma read_rows_loop {A} (rows : list (list A)) :
  forall lines : list (A + list A),
    for_each (fun lines line => ret (lines ++ [inr line])) lines rows
    = inr (lines ++ map inr rows).
Proof.
  induction rows as [| line rows IH]; intro lines; simpl.
  - rewrite app_nil_r. reflexivity.
  - rewrite IH, <- app_assoc. reflexivity.
Qed.

Lemma first_fields_length {A} (rows : list (list A)) :
  ~ In [] rows -> List.length (first_fields rows) = List.length rows.
Proof.
  induction rows as [| line rows IH]; intro H; [reflexivity |].
  destruct line as [| x line].
  - exfalso. apply H. left. reflexivity.
  - simpl. f_equal. apply IH. intro Hin. apply H. right. exact Hin.
Qed.

(** X15.  Read with [as_singles], a file gives the first field of each of
    its rows, in order and one per row, unless some row has no field (a
    blank line), in which case the read raises [IndexError]; read
    without it, every row is returned as it is and nothing is raised. *)
Theorem read_csv_file_singles {A} (csv_reader : list (list A)) :
  (In [] csv_reader -> read_csv_file csv_reader true = inl IndexError)
  /\ (~ In [] csv_reader ->
      read_csv_file csv_reader true = inr (map inl (first_fields csv_reader))
      /\ List.length (first_fields csv_reader) = List.length csv_reader)
  /\ read_csv_file csv_reader false = inr (map inr csv_reader).
Proof.
  unfold read_csv_file.
  destruct (read_singles_loop csv_reader []) as [He Hs].
  split; [exact He | split].
  - intro H. split; [apply Hs; exact H | apply first_fields_length; exact H].
  - apply (read_rows_loop csv_reader []).
Qed.

Lemma read_csv_file_singles_witness :
  read_csv_file [[1%float]; []; [2%float]] true = inl IndexError
  /\ read_csv_file [[1%float; 7%float]; [2%float]] true
     = inr [inl 1%float; inl 2%float].
Proof.
  split.
  - apply (proj1 (read_csv_file_singles [[1%float]; []; [2%float]])).
    right. left. reflexivity.
  - refine (proj1 (proj1 (proj2 (read_csv_file_singles
                                   [[1%float; 7%float]; [2%float]])) _)).
    intros [H | [H | H]]; [discriminate | discriminate | exact H].
Defined.

(** ** File names *)

Lemma fold_left_append_map {A B} (f : A -> B) (l : list A) :
  forall acc, fold_left (fun acc a => acc ++ [f a]) l acc = acc ++ map f l.
Proof.
  induction l as [| a l IH]; intro acc; simpl.
  - rewrite app_nil_r. reflexivity.
  - rewrite IH, <- app_assoc. reflexivity.
Qed.

Lemma get_data_files_suffix_map
      (path_join : String.string -> String.string -> String.string)
      (base_folder : String.string) (prefixes : list String.string)
      (suffix : String.string) :
  Paths.get_data_files_suffix path_join base_folder prefixes suffix
  = map (fun prefix => path_join base_folder (Paths.file_name prefix suffix))
        prefixes.
Proof.
  unfold Paths.get_data_files_suffix.
  apply (fold_left_append_map
           (fun prefix => path_join base_folder (Paths.file_name prefix suffix))
           prefixes []).
Qed.

(** X16.  [get_data_files] names one file of each kind per prefix, in
    the order of the prefixes: the lists under ["x"], ["x_time"] and
    ["y_time"] have the length of [prefixes], entry [i] of each being the
    path of [prefix_i] followed by the kind and [.csv]; ["y"] is [None]
    exactly when [skip_y] is set and a list of the same length
    otherwise. *)
Theorem get_data_files_one_path_per_prefix
        (path_join : String.string -> String.string -> String.string)
        (base_folder : String.string) (prefixes : list String.string)
        (skip_y : bool) :
  let d := Paths.get_data_files path_join base_folder prefixes skip_y in
  let named suffix :=
    map (fun prefix =>
           path_join base_folder
                     (String.append prefix
                                    (String.append suffix ".csv"%string)))
        prefixes in
  Paths.x d = named "x"%string
  /\ Paths.x_time d = named "x_time"%string
  /\ Paths.y_time d = named "y_time"%string
  /\ Paths.y d = (if skip_y then None else Some (named "y"%string))
  /\ List.length (Paths.x d) = List.length prefixes
  /\ List.length (Paths.x_time d) = List.length prefixes
  /\ List.length (Paths.y_time d) = List.length prefixes
  /\ (forall ys, Paths.y d = Some ys ->
                 List.length ys = List.length prefixes).
Proof.
  cbv zeta. unfold Paths.get_data_files.
  cbn [Paths.x Paths.y Paths.x_time Paths.y_time].
  rewrite !get_data_files_suffix_map. unfold Paths.file_name.
  repeat split; try apply length_map.
  intros ys H. destruct skip_y; [discriminate |].
  injection H as <-. apply length_map.
Qed.

(** * Inputs on which the file loop returns *)

Lemma file_body_total (ds : DataStreamer) (st0 : Loading) (i : nat)
      (f : list row) :
  times_carried (x_time_files ds) (ld_feature_times st0) ->
  times_carried (y_time_files ds) (ld_label_times st0) ->
  group_loads ds i f ->
  exists st1, file_body ds st0 (i, f) = inr st1.
Proof.
  intros Hx Hy [Hne [Hlab [ft [lt [Hft [Hlt Hrange]]]]]].
  unfold file_body.
  destruct f as [| r0 rest]; [contradiction |].
  change (getitem (r0 :: rest) 0) with (@inr exn row r0). cbn [bind].
  match goal with
  | |- exists st, bind ?m _ = inr st =>
      assert (E : exists lbls, m = inr lbls)
  end.
  { destruct (truthy (y_files ds)); [| eexists; reflexivity].
    destruct (getitem_front (files_of (y_files ds)) (Z.of_nat i))
      as [ys [Hys _]].
    - specialize (Hlab eq_refl). unfold len. lia.
    - rewrite Hys. eexists. reflexivity. }
  destruct E as [lbls E]. rewrite E. cbn [bind]. clear E.
  match goal with
  | |- exists st, bind ?m _ = inr st => assert (E : m = inr ft)
  end.
  { unfold times_of_group in Hft.
    destruct (truthy (x_time_files ds)) eqn:T; [exact Hft |].
    injection Hft as <-. rewrite (Hx T). reflexivity. }
  rewrite E. cbn [bind]. clear E.
  match goal with
  | |- exists st, bind ?m _ = inr st => assert (E : m = inr lt)
  end.
  { unfold times_of_group in Hlt.
    destruct (truthy (y_time_files ds)) eqn:T; [exact Hlt |].
    injection Hlt as <-. rewrite (Hy T). reflexivity. }
  rewrite E. cbn [bind]. clear E.
  destruct (align_total _ _ _ _ Hrange) as [ws Hws].
  rewrite align_is_align_by_base in Hws.
  rewrite align_onto_by_base, Hws. cbn [bind ret].
  eexists. reflexivity.
Qed.

Lemma file_loop_total (ds : DataStreamer) (fs : list (list row)) :
  forall i st0,
    times_carried (x_time_files ds) (ld_feature_times st0) ->
    times_carried (y_time_files ds) (ld_label_times st0) ->
    (forall j f, nth_error fs j = Some f -> group_loads ds (i + j) f) ->
    exists st, for_each (file_body ds) st0 (enumerate_from i fs) = inr st.
Proof.
  induction fs as [| f fs IH]; intros i st0 Hx Hy Hall;
    cbn [enumerate_from for_each].
  - eexists. reflexivity.
  - pose proof (Hall 0%nat f eq_refl) as Hf. rewrite Nat.add_0_r in Hf.
    destruct (file_body_total ds st0 i f Hx Hy Hf) as [st1 H1].
    rewrite H1. cbn [bind].
    destruct (file_body_inr ds st0 st1 (i, f) Hx Hy H1) as [Hx1 [Hy1 _]].
    apply IH; [exact Hx1 | exact Hy1 |].
    intros j g Hj. replace (S i + j)%nat with (i + S j)%nat by lia.
    apply Hall. exact Hj.
Qed.

(** X17.  The file loop of [initialize] (lines 88-115) returns on
    well-formed input: when every feature file has a row, the files
    that go with it exist, and its search positions stay inside its
    feature times, no file and no label raises. *)
Theorem well_formed_groups_load (ds : DataStreamer) :
  (forall i f, nth_error (x_files ds) i = Some f -> group_loads ds i f) ->
  exists st, load_files ds = inr st.
Proof.
  intro Hall.
  destruct (file_loop_total ds (x_files ds) 0
                            (mkLoading [] [] (n_features ds) (n_samples ds)
                                       [] []))
    as [st Hst]; [intro; reflexivity | intro; reflexivity | exact Hall |].
  exists st. exact Hst.
Qed.

Lemma well_formed_groups_load_witness :
  exists st, load_files five_samples = inr st.
Proof.
  apply (well_formed_groups_load five_samples).
  intros [| i] f Hf; simpl in Hf; [| destruct i; discriminate].
  injection Hf as <-.
  split; [discriminate |].
  split; [intros _; simpl; lia |].
  exists ex_times, [0%float; 1%float; 2%float; 3%float; 4%float].
  split; [reflexivity | split; [reflexivity |]].
  unfold stays_in_range.
  split; [simpl; lia | split; [simpl; lia | split; [reflexivity |]]].
  intros _ _. vm_compute. reflexivity.
Defined.

(** * Aligning a label list in two parts *)

Lemma map_result_app {A B} (f : A -> result B) (l1 l2 : list A) :
  map_result f (l1 ++ l2)
  = (xs <- map_result f l1 ;; ys <- map_result f l2 ;; ret (xs ++ ys)).
Proof.
  induction l1 as [| a l1 IH]; cbn [map_result app bind ret].
  - destruct (map_result f l2); reflexivity.
  - destruct (f a) as [e | b]; cbn [bind]; [reflexivity |].
    rewrite IH.
    destruct (map_result f l1) as [e | xs]; cbn [bind]; [reflexivity |].
    destruct (map_result f l2) as [e | ys]; reflexivity.
Qed.

Lemma windows_rebased (feats : list row) (ftimes : list float)
      (sd : SamplingRate) (k : nat) (l : list float) :
  forall i,
    map_result (window_of_label feats ftimes sd) (enumerate_from (k + i) l)
    = map_result
        (window_of_label feats ftimes
           (with_x_start sd (x_start sd + Z.of_nat k * step_size sd)))
        (enumerate_from i l).
Proof.
  induction l as [| t l IH]; intro i; cbn [enumerate_from map_result].
  - reflexivity.
  - replace (S (k + i)) with (k + S i)%nat by lia. rewrite IH.
    unfold window_of_label at 1 3. cbn [fst snd x_start step_size with_x_start].
    replace (x_start sd + Z.of_nat k * step_size sd
             + Z.of_nat i * step_size sd)
      with (x_start sd + Z.of_nat (k + i) * step_size sd) by lia.
    reflexivity.
Qed.

(** X18.  Aligning a list of label times is aligning its first part and
    then the rest with the start index moved on by one stride per label
    of the first part; an exception in either part is the exception of
    the whole. *)
Theorem align_in_two_parts (feats : list row) (ftimes : list float)
        (sd : SamplingRate) (l1 l2 : list float) :
  align feats ftimes sd (l1 ++ l2)
  = (ws1 <- align feats ftimes sd l1 ;;
     ws2 <- align feats ftimes
                  (with_x_start sd (x_start sd + len l1 * step_size sd)) l2 ;;
     ret (ws1 ++ ws2)).
Proof.
  rewrite !align_is_align_by_base. unfold align_by_base, enumerate.
  rewrite enumerate_from_app, map_result_app. cbn [Nat.add].
  pose proof (windows_rebased feats ftimes sd (List.length l1) l2 0) as H.
  rewrite Nat.add_0_r in H. rewrite H. reflexivity.
Qed.
